(** * Buddhabrot generator: a shallow embedding of [BuddhabrotGenerator/main.cc]

    The C++ program samples candidate points [c], iterates [z <- z*z + c],
    bins the orbit of every escaping candidate into one heat map per colour
    channel and rescales the counters to [0, 255].

    Conventions of the embedding:
    - [double] is the binary64 type of the kernel ([PrimFloat.float]); every
      arithmetic operation and comparison of the source is the corresponding
      IEEE-754 primitive, so the definitions evaluate bit for bit;
    - [int], [long long] and [unsigned int] values are integers of [Z]; the
      wrap-around of [HeatmapType] (a 32-bit [unsigned int]) is written out;
    - a [HeatmapType**] grid is a list of rows, read and updated by index;
    - what the C++ standard leaves undefined (an access outside a grid, a
      floating-point value converted to an [int] that cannot hold it) and the
      exception raised by [vector::reserve] are explicit outcomes of type
      [result];
    - the pseudo-random generator, seeded from the clock inside every call of
      [GenerateHeatmap], is an arbitrary stream of samples given as input;
    - console output, the clock and the text of the PPM file do not touch
      the counters and are left out, and so is the exhaustion of memory;
      [elapsedTime] is a function of the count of nanoseconds it is given;
    - of the release of the grids ([FreeHeatmap]) the model keeps what
      decides whether it is defined: the rows it reads and the form of each
      delete-expression against the form of the new-expression. *)

From Stdlib Require Import ZArith Lia List Floats Permutation DecimalString.
From stdpp Require Import base option list strings.
Import ListNotations.

Local Open Scope Z_scope.

(** ** Outcomes *)

(** The exceptions the standard library raises in this program. *)
Inductive exception : Type :=
  | length_error
  | bad_array_new_length.

(** A call returns a value, leaves by an exception, or has no defined
    behaviour. *)
Inductive result (A : Type) : Type :=
  | Ok (a : A)
  | Throw (e : exception)
  | Undefined.
Arguments Ok {A} a.
Arguments Throw {A} e.
Arguments Undefined {A}.

#[global] Instance result_ret : MRet result := fun A a => Ok a.
#[global] Instance result_bind : MBind result := fun A B f m =>
  match m with
  | Ok a => f a
  | Throw e => Throw e
  | Undefined => Undefined
  end.

(** ** Machine integers *)

Definition INT_MIN : Z := - 2 ^ 31.
Definition INT_MAX : Z := 2 ^ 31 - 1.
Definition UINT_MODULUS : Z := 2 ^ 32.

(** Arithmetic on [HeatmapType] is modulo [2^32]. *)
Definition HeatmapType_wrap (v : Z) : Z := v mod UINT_MODULUS.

(** Conversion of an [int] or an [unsigned int] to [double]; exact on both
    ranges, which are below [2^53]. *)
Definition double_of_Z (v : Z) : float :=
  if v <? 0 then (- PrimFloat.of_uint63 (Uint63.of_Z (- v)))%float
  else PrimFloat.of_uint63 (Uint63.of_Z v).

(** The integer obtained by discarding the fractional part of a finite
    [double]; [None] on infinities and NaN. *)
Definition truncate (x : float) : option Z :=
  match Prim2SF x with
  | S754_zero _ => Some 0
  | S754_finite s m e =>
      let mag := if 0 <=? e then Z.pos m * 2 ^ e else Z.pos m / 2 ^ (- e) in
      Some (if s then - mag else mag)
  | S754_infinity _ => None
  | S754_nan => None
  end.

(** [static_cast<int>(x)], and the implicit conversion from [double] to
    [int]: truncation toward zero, undefined when the truncated value is
    not an [int]. *)
Definition int_of_double (x : float) : result Z :=
  match truncate x with
  | Some v => if (INT_MIN <=? v) && (v <=? INT_MAX) then Ok v else Undefined
  | None => Undefined
  end.

(** ** class Complex *)

Module Complex.

Record t : Type := mk { r : float; i : float }.

(** [Complex(double r = 0.0, double i = 0.0)] with both defaults. *)
Definition default : t := mk 0%float 0%float.

Definition mul (a b : t) : t :=
  mk (r a * r b - i a * i b)%float (r a * i b + i a * r b)%float.

Definition add (a b : t) : t :=
  mk (r a + r b)%float (i a + i b)%float.

Definition sqmagnitude (a : t) : float :=
  (r a * r a + i a * i a)%float.

End Complex.

Abbreviation Complex := Complex.t.

(** ** buddhabrotPoints *)

(** The state of the [while] loop: the counter [n], the iterate [z] and the
    vector [toReturn]. *)
Record LoopState : Type :=
  mkLoop { loop_n : Z; loop_z : Complex; loop_toReturn : list Complex }.

(** [while (n < nIterations && z.sqmagnitude() <= 2.0) { ... }].  The first
    argument is the distance [nIterations - n], so that [n < nIterations]
    holds exactly when it is a successor. *)
Fixpoint buddhabrotLoop (remaining : nat) (c : Complex) (st : LoopState)
  : LoopState :=
  match remaining with
  | O => st
  | S remaining' =>
      if (Complex.sqmagnitude (loop_z st) <=? 2)%float then
        let z := Complex.add (Complex.mul (loop_z st) (loop_z st)) c in
        buddhabrotLoop remaining' c
          (mkLoop (loop_n st + 1) z (loop_toReturn st ++ [z]))
      else st
  end.

(** [toReturn.reserve(nIterations)]: the [int] is converted to [size_type],
    so a negative bound becomes a capacity above [max_size()] and the call
    raises [std::length_error]. *)
Definition reserve (nIterations : Z) : result unit :=
  if nIterations <? 0 then Throw length_error else Ok tt.

Definition buddhabrotPoints (c : Complex) (nIterations : Z)
  : result (list Complex) :=
  _ ← reserve nIterations;
  let st := buddhabrotLoop (Z.to_nat nIterations) c
              (mkLoop 0 Complex.default []) in
  if loop_n st =? nIterations then Ok [] else Ok (loop_toReturn st).

(** Number of times the body of the loop runs in a call. *)
Definition buddhabrotIterations (c : Complex) (nIterations : Z) : Z :=
  loop_n (buddhabrotLoop (Z.to_nat nIterations) c
            (mkLoop 0 Complex.default [])).

(** The iterates [z_0 = 0], [z_(k+1) = z_k * z_k + c] of the escape map,
    by their index. *)
Fixpoint orbit (c : Complex) (k : nat) : Complex :=
  match k with
  | O => Complex.default
  | S k' => Complex.add (Complex.mul (orbit c k') (orbit c k')) c
  end.

(** The loop condition on the iterate: squared magnitude at most [2.0]. *)
Definition bounded (z : Complex) : bool :=
  (Complex.sqmagnitude z <=? 2)%float.

(** ** Heat maps *)

(** A [HeatmapType**]: rows of counters, each counter in [0, 2^32). *)
Abbreviation Heatmap := (list (list Z)).

(** The grid [AllocHeatmap] builds: [height] rows of [width] zeros. *)
Definition zeroHeatmap (width height : Z) : Heatmap :=
  replicate (Z.to_nat height) (replicate (Z.to_nat width) 0).

(** [new HeatmapType*[height]], then [new HeatmapType[width]] for each row.
    A negative array length makes the new-expression raise
    [std::bad_array_new_length]. *)
Definition AllocHeatmap (width height : Z) : result Heatmap :=
  if height <? 0 then Throw bad_array_new_length
  else if (0 <? height) && (width <? 0) then Throw bad_array_new_length
  else Ok (zeroHeatmap width height).

(** The cell at a valid position, and the grid with that cell replaced. *)
Definition getCell (heatmap : Heatmap) (row col : nat) : option Z :=
  line ← heatmap !! row; line !! col.

Definition setCell (heatmap : Heatmap) (row col : nat) (v : Z) : Heatmap :=
  alter (fun line => <[col := v]> line) row heatmap.

(** [o_heatmap[row][col]] read: undefined outside the allocated rows. *)
Definition readCell (o_heatmap : Heatmap) (row col : Z) : result Z :=
  if (row <? 0) || (col <? 0) then Undefined
  else match getCell o_heatmap (Z.to_nat row) (Z.to_nat col) with
       | Some v => Ok v
       | None => Undefined
       end.

(** [++o_heatmap[row][col]]: the counter is replaced by its successor
    modulo [2^32]. *)
Definition incrementCell (o_heatmap : Heatmap) (row col : Z)
  : result Heatmap :=
  v ← readCell o_heatmap row col;
  Ok (setCell o_heatmap (Z.to_nat row) (Z.to_nat col)
        (HeatmapType_wrap (v + 1))).

(** ** rowFromReal, colFromImaginary *)

Definition rowFromReal (real minR maxR : float) (imageHeight : Z) : result Z :=
  int_of_double ((real - minR) * (double_of_Z imageHeight / (maxR - minR)))%float.

Definition colFromImaginary (imag minI maxI : float) (imageWidth : Z)
  : result Z :=
  int_of_double ((imag - minI) * (double_of_Z imageWidth / (maxI - minI)))%float.

(** ** GenerateHeatmap *)

(** The test guarding the increment; [a >= b] on [double] is [b <= a]. *)
Definition inWindow (minimum maximum point : Complex) : bool :=
  (Complex.r point <=? Complex.r maximum)%float
  && (Complex.r minimum <=? Complex.r point)%float
  && (Complex.i point <=? Complex.i maximum)%float
  && (Complex.i minimum <=? Complex.i point)%float.

(** What [GenerateHeatmap] updates through its two output parameters. *)
Record Accumulator : Type :=
  mkAcc { o_heatmap : Heatmap; o_maxHeatmapValue : Z }.

(** The largest finite [double]. *)
Definition DBL_MAX : float := Eval compute in next_down infinity.

(** [uniform_real_distribution<double>(a, b)]: the constructor requires
    [a <= b] and [b - a <= DBL_MAX]; the behaviour is undefined otherwise. *)
Definition uniform_real_distribution (a b : float) : result unit :=
  if ((a <=? b) && (b - a <=? DBL_MAX))%float then Ok tt else Undefined.

Section GenerateHeatmap.

Variables imageWidth imageHeight : Z.
Variables minimum maximum : Complex.

(** The body of [for (Complex& point : pointsList)]. *)
Definition accumulate (acc : Accumulator) (point : Complex)
  : result Accumulator :=
  if inWindow minimum maximum point then
    row ← rowFromReal (Complex.r point) (Complex.r minimum)
            (Complex.r maximum) imageHeight;
    col ← colFromImaginary (Complex.i point) (Complex.i minimum)
            (Complex.i maximum) imageWidth;
    heatmap ← incrementCell (o_heatmap acc) row col;
    v ← readCell heatmap row col;
    Ok (mkAcc heatmap
          (if o_maxHeatmapValue acc <? v then v else o_maxHeatmapValue acc))
  else Ok acc.

Fixpoint accumulatePoints (acc : Accumulator) (pointsList : list Complex)
  : result Accumulator :=
  match pointsList with
  | [] => Ok acc
  | point :: rest => acc' ← accumulate acc point; accumulatePoints acc' rest
  end.

(** The two halves of [accumulate], for the proofs: the cell a point is
    counted in, if any, and the counting itself. *)
Definition binOf (point : Complex) : result (option (Z * Z)) :=
  if inWindow minimum maximum point then
    row ← rowFromReal (Complex.r point) (Complex.r minimum)
            (Complex.r maximum) imageHeight;
    col ← colFromImaginary (Complex.i point) (Complex.i minimum)
            (Complex.i maximum) imageWidth;
    Ok (Some (row, col))
  else Ok None.

Definition countAt (acc : Accumulator) (row col : Z) : result Accumulator :=
  heatmap ← incrementCell (o_heatmap acc) row col;
  v ← readCell heatmap row col;
  Ok (mkAcc heatmap
        (if o_maxHeatmapValue acc <? v then v else o_maxHeatmapValue acc)).

(** The value read back from the incremented cell, when [point] is
    counted: what the comparison with the maximum observes. *)
Definition observedValue (heatmap : Heatmap) (point : Complex) : list Z :=
  match binOf point with
  | Ok (Some (row, col)) =>
      match incrementCell heatmap row col with
      | Ok heatmap' =>
          match readCell heatmap' row col with
          | Ok v => [v]
          | _ => []
          end
      | _ => []
      end
  | _ => []
  end.

Variable nIterations : Z.

(** The samples the generator of this call produces, in drawing order. *)
Variable rng : nat -> Complex.

(** [for (sampleIdx = 0; sampleIdx < nSamples; ++sampleIdx)], with
    [remaining = nSamples - sampleIdx].  The final [sampleIdx], which is
    the number of samples drawn, is returned with the accumulator. *)
Fixpoint sampleLoop (remaining : nat) (sampleIdx : Z) (acc : Accumulator)
  : result (Accumulator * Z) :=
  match remaining with
  | O => Ok (acc, sampleIdx)
  | S remaining' =>
      let sample := rng (Z.to_nat sampleIdx) in
      pointsList ← buddhabrotPoints sample nIterations;
      acc' ← accumulatePoints acc pointsList;
      sampleLoop remaining' (sampleIdx + 1) acc'
  end.

Definition GenerateHeatmap (nSamples : Z) (acc : Accumulator)
  : result (Accumulator * Z) :=
  _ ← uniform_real_distribution (Complex.r minimum) (Complex.r maximum);
  _ ← uniform_real_distribution (Complex.i minimum) (Complex.i maximum);
  sampleLoop (Z.to_nat nSamples) 0 acc.

End GenerateHeatmap.

(** ** colorFromHeatmap *)

Definition colorFromHeatmap (inputValue maxHeatmapValue maxColor : Z)
  : result Z :=
  let scale := (double_of_Z maxColor / double_of_Z maxHeatmapValue)%float in
  int_of_double (double_of_Z inputValue * scale)%float.

(** ** main *)

(** [heatmap[row][col] = colorFromHeatmap(heatmap[row][col], max, 255)] for
    every cell; the [int] is converted back to [HeatmapType]. *)
Fixpoint scaleLine (maxHeatmapValue maxColor : Z) (line : list Z)
  : result (list Z) :=
  match line with
  | [] => Ok []
  | v :: rest =>
      color ← colorFromHeatmap v maxHeatmapValue maxColor;
      rest' ← scaleLine maxHeatmapValue maxColor rest;
      Ok (HeatmapType_wrap color :: rest')
  end.

Fixpoint scaleHeatmap (maxHeatmapValue maxColor : Z) (heatmap : Heatmap)
  : result Heatmap :=
  match heatmap with
  | [] => Ok []
  | line :: rest =>
      line' ← scaleLine maxHeatmapValue maxColor line;
      rest' ← scaleHeatmap maxHeatmapValue maxColor rest;
      Ok (line' :: rest')
  end.

(** ** FreeHeatmap *)

(** The two forms of a new-expression: [new T] and [new T[n]]. *)
Inductive NewForm : Type := new_object | new_array.

(** [delete p] is defined for a pointer obtained from [new T], [delete[] p]
    for one obtained from [new T[n]]; the behaviour of either on a pointer
    of the other form is undefined. *)
Definition delete_object (from : NewForm) : result unit :=
  match from with new_object => Ok tt | new_array => Undefined end.

Definition delete_array (from : NewForm) : result unit :=
  match from with new_array => Ok tt | new_object => Undefined end.

(** [for (int i = 0; i < height; ++i) { delete[] o_heatmap[i]; ... }], with
    [remaining = height - i].  Every row was allocated by [AllocHeatmap]
    with [new HeatmapType[width]]; reading [o_heatmap[i]] past the last
    row is undefined. *)
Fixpoint freeRows (remaining : nat) (i : Z) (o_heatmap : Heatmap)
  : result unit :=
  match remaining with
  | O => Ok tt
  | S remaining' =>
      match o_heatmap !! Z.to_nat i with
      | Some _ => _ ← delete_array new_array;
                  freeRows remaining' (i + 1) o_heatmap
      | None => Undefined
      end
  end.

(** After the rows, [delete o_heatmap]: the single-object form, on the
    array of row pointers that [AllocHeatmap] obtained from
    [new HeatmapType*[height]]. *)
Definition FreeHeatmap (o_heatmap : Heatmap) (height : Z) : result unit :=
  _ ← freeRows (Z.to_nat height) 0 o_heatmap;
  delete_object new_array.

(** The three grids and the maximum they share. *)
Record Channels : Type :=
  mkChannels { red : Heatmap; green : Heatmap; blue : Heatmap;
               maxHeatmapValue : Z }.

Inductive ExitStatus : Type :=
  | EXIT_FAILURE
  | EXIT_SUCCESS (ppm : Heatmap * Heatmap * Heatmap).

Section Main.

Variables MINIMUM MAXIMUM : Complex.
Variables IMAGE_HEIGHT IMAGE_WIDTH : Z.
Variables RED_ITERS BLUE_ITERS GREEN_ITERS : Z.
Variable SAMPLE_COUNT : Z.

(** The generators of the three calls of [GenerateHeatmap]. *)
Variables rngRed rngGreen rngBlue : nat -> Complex.

(** Allocation of the grids and the three calls, red, green, blue, all
    updating the same [maxHeatmapValue]. *)
Definition generateChannels : result Channels :=
  red ← AllocHeatmap IMAGE_WIDTH IMAGE_HEIGHT;
  green ← AllocHeatmap IMAGE_WIDTH IMAGE_HEIGHT;
  blue ← AllocHeatmap IMAGE_WIDTH IMAGE_HEIGHT;
  r ← GenerateHeatmap IMAGE_WIDTH IMAGE_HEIGHT MINIMUM MAXIMUM RED_ITERS
        rngRed SAMPLE_COUNT (mkAcc red 0);
  g ← GenerateHeatmap IMAGE_WIDTH IMAGE_HEIGHT MINIMUM MAXIMUM GREEN_ITERS
        rngGreen SAMPLE_COUNT (mkAcc green (o_maxHeatmapValue (fst r)));
  b ← GenerateHeatmap IMAGE_WIDTH IMAGE_HEIGHT MINIMUM MAXIMUM BLUE_ITERS
        rngBlue SAMPLE_COUNT (mkAcc blue (o_maxHeatmapValue (fst g)));
  Ok (mkChannels (o_heatmap (fst r)) (o_heatmap (fst g))
        (o_heatmap (fst b)) (o_maxHeatmapValue (fst b))).

(** "Scale the heatmap down".  The source rescales the three grids cell by
    cell in one pair of loops; the cells do not depend on each other, so
    the grids are rescaled one after the other here. *)
Definition scaleChannels (ch : Channels) : result (Heatmap * Heatmap * Heatmap) :=
  r ← scaleHeatmap (maxHeatmapValue ch) 255 (red ch);
  g ← scaleHeatmap (maxHeatmapValue ch) 255 (green ch);
  b ← scaleHeatmap (maxHeatmapValue ch) 255 (blue ch);
  Ok (r, g, b).

(** [imgOut] tells whether [out.ppm] could be opened.  After the image is
    written the three grids are released, red, green, blue. *)
Definition mainWith (imgOut : bool) : result ExitStatus :=
  if negb imgOut then Ok EXIT_FAILURE
  else
    ch ← generateChannels;
    ppm ← scaleChannels ch;
    _ ← FreeHeatmap (fst (fst ppm)) IMAGE_HEIGHT;
    _ ← FreeHeatmap (snd (fst ppm)) IMAGE_HEIGHT;
    _ ← FreeHeatmap (snd ppm) IMAGE_HEIGHT;
    Ok (EXIT_SUCCESS ppm).

End Main.

(** ** The sampling phase as a sequence of increments

    Every point handed to [accumulate] during the three calls of
    [GenerateHeatmap], tagged with the channel whose grid it is counted
    in. *)

Inductive Channel : Type := Red | Green | Blue.

Definition channelHeatmap (ch : Channel) (s : Channels) : Heatmap :=
  match ch with Red => red s | Green => green s | Blue => blue s end.

Definition updateChannel (ch : Channel) (s : Channels) (acc : Accumulator)
  : Channels :=
  match ch with
  | Red => mkChannels (o_heatmap acc) (green s) (blue s) (o_maxHeatmapValue acc)
  | Green => mkChannels (red s) (o_heatmap acc) (blue s) (o_maxHeatmapValue acc)
  | Blue => mkChannels (red s) (green s) (o_heatmap acc) (o_maxHeatmapValue acc)
  end.

(** The greatest element of a list of counter values, zero for none. *)
Definition maximumOf (l : list Z) : Z := fold_right Z.max 0 l.

Section Events.

Variables imageWidth imageHeight : Z.
Variables minimum maximum : Complex.

Definition accumulateIn (s : Channels) (ev : Channel * Complex)
  : result Channels :=
  acc ← accumulate imageWidth imageHeight minimum maximum
          (mkAcc (channelHeatmap (fst ev) s) (maxHeatmapValue s)) (snd ev);
  Ok (updateChannel (fst ev) s acc).

Fixpoint accumulateEvents (s : Channels) (evs : list (Channel * Complex))
  : result Channels :=
  match evs with
  | [] => Ok s
  | ev :: rest => s' ← accumulateIn s ev; accumulateEvents s' rest
  end.

(** The cell values observed at the increments of a run, in order. *)
Fixpoint observedValues (s : Channels) (evs : list (Channel * Complex))
  : list Z :=
  match evs with
  | [] => []
  | ev :: rest =>
      observedValue imageWidth imageHeight minimum maximum
        (channelHeatmap (fst ev) s) (snd ev)
      ++ match accumulateIn s ev with
         | Ok s' => observedValues s' rest
         | _ => []
         end
  end.

End Events.

(** The points one call of [GenerateHeatmap] hands to [accumulate]: the
    trajectories of the samples of index [first] to [first + count - 1]. *)
Definition passPoints (nIterations : Z) (rng : nat -> Complex)
  (first count : nat) : list Complex :=
  flat_map (fun k => match buddhabrotPoints (rng k) nIterations with
                     | Ok pointsList => pointsList
                     | _ => []
                     end)
    (seq first count).

Definition passEvents (ch : Channel) (nIterations : Z) (rng : nat -> Complex)
  (nSamples : Z) : list (Channel * Complex) :=
  map (pair ch) (passPoints nIterations rng 0 (Z.to_nat nSamples)).

(** The points of the three calls of [main], red, then green, then blue. *)
Definition samplingEvents (RED_ITERS BLUE_ITERS GREEN_ITERS SAMPLE_COUNT : Z)
  (rngRed rngGreen rngBlue : nat -> Complex) : list (Channel * Complex) :=
  passEvents Red RED_ITERS rngRed SAMPLE_COUNT
  ++ passEvents Green GREEN_ITERS rngGreen SAMPLE_COUNT
  ++ passEvents Blue BLUE_ITERS rngBlue SAMPLE_COUNT.

(** The state [main] starts the sampling from. *)
Definition freshChannels (IMAGE_WIDTH IMAGE_HEIGHT : Z) : Channels :=
  mkChannels (zeroHeatmap IMAGE_WIDTH IMAGE_HEIGHT)
    (zeroHeatmap IMAGE_WIDTH IMAGE_HEIGHT)
    (zeroHeatmap IMAGE_WIDTH IMAGE_HEIGHT) 0.

(** Every counter of every grid lies between zero and the shared
    maximum. *)
Definition cellsBelowMaximum (s : Channels) : Prop :=
  forall (ch : Channel) (row col : nat) (v : Z),
    getCell (channelHeatmap ch s) row col = Some v ->
    0 <= v <= maxHeatmapValue s.

(** [main] with the constants of the source. *)
Definition main (rngRed rngGreen rngBlue : nat -> Complex) (imgOut : bool)
  : result ExitStatus :=
  mainWith (Complex.mk (-2) (-2)) (Complex.mk 1 2) 7000 7000
    5 500000 500 (7000 * 7000 * 350) rngRed rngGreen rngBlue imgOut.

(** ** elapsedTime *)

(** The periods of [chrono::hours], [minutes], [seconds] and
    [milliseconds], in nanoseconds. *)
Definition NANOS_PER_HOUR : Z := 3600000000000.
Definition NANOS_PER_MINUTE : Z := 60000000000.
Definition NANOS_PER_SECOND : Z := 1000000000.
Definition NANOS_PER_MILLISECOND : Z := 1000000.

(** [ss << n] for an integer count: its decimal digits, with a minus sign
    when negative. *)
Definition decimal (n : Z) : string := NilZero.string_of_int (Z.to_int n).

(** The four local durations of [elapsedTime], as their [count()].
    [duration_cast] to a coarser unit truncates toward zero; the
    subtractions are carried out in nanoseconds. *)
Definition elapsed_hrs (elapsed : Z) : Z := elapsed ÷ NANOS_PER_HOUR.

Definition elapsed_mins (elapsed : Z) : Z :=
  (elapsed - elapsed_hrs elapsed * NANOS_PER_HOUR) ÷ NANOS_PER_MINUTE.

Definition elapsed_secs (elapsed : Z) : Z :=
  (elapsed - elapsed_hrs elapsed * NANOS_PER_HOUR
   - elapsed_mins elapsed * NANOS_PER_MINUTE) ÷ NANOS_PER_SECOND.

Definition elapsed_mils (elapsed : Z) : Z :=
  (elapsed - elapsed_hrs elapsed * NANOS_PER_HOUR
   - elapsed_mins elapsed * NANOS_PER_MINUTE
   - elapsed_secs elapsed * NANOS_PER_SECOND) ÷ NANOS_PER_MILLISECOND.

(** [elapsedTime(chrono::nanoseconds)]: the argument is the count of
    nanoseconds, the result the contents of the string stream. *)
Definition elapsedTime (elapsed : Z) : string :=
  let hrs := elapsed_hrs elapsed in
  let mins := elapsed_mins elapsed in
  let secs := elapsed_secs elapsed in
  let mils := elapsed_mils elapsed in
  (if 24 <? hrs
   then decimal (hrs ÷ 24) +:+ " Days, " +:+ decimal (Z.rem hrs 24)
        +:+ " Hours, "
   else if 0 <? hrs then decimal hrs +:+ " Hours, " else "")
  +:+ (if 0 <? mins then decimal mins +:+ " Minutes, " else "")
  +:+ (if 0 <? secs then decimal secs +:+ " Seconds, " else "")
  +:+ (if 0 <? mils then decimal mils +:+ " Milliseconds" else "").

(** ** Measures of a grid *)

(** The lengths of the rows. *)
Definition shape (heatmap : Heatmap) : list nat := map length heatmap.

(** The sum of the counters of a row, and of a grid. *)
Definition lineTotal (line : list Z) : Z := fold_right Z.add 0 line.

Definition heatmapTotal (heatmap : Heatmap) : Z :=
  fold_right (fun line t => lineTotal line + t) 0 heatmap.

(** The points of a list that pass the window test. *)
Definition pointsInWindow (minimum maximum : Complex) (l : list Complex)
  : list Complex :=
  List.filter (inWindow minimum maximum) l.

(** * Properties *)

(** ** The [result] monad *)

Lemma bind_Ok {A B : Type} (m : result A) (f : A -> result B) (b : B) :
  m ≫= f = Ok b -> exists a, m = Ok a /\ f a = Ok b.
Proof. destruct m as [a| |]; simpl; intros H; try discriminate; eauto. Qed.

Ltac inv_bind H :=
  let a := fresh "a" in
  let Ha := fresh "Ha" in
  apply bind_Ok in H; destruct H as (a & Ha & H).

(** ** The trajectory generator *)

Section Trajectory.

Variable c : Complex.

(** The counter advances by one per appended point and by at most the
    distance to the bound. *)
Lemma buddhabrotLoop_counter (k : nat) (st : LoopState) :
  loop_n st <= loop_n (buddhabrotLoop k c st) <= loop_n st + Z.of_nat k
  /\ Z.of_nat (length (loop_toReturn (buddhabrotLoop k c st)))
     = Z.of_nat (length (loop_toReturn st))
       + (loop_n (buddhabrotLoop k c st) - loop_n st).
Proof.
  revert st; induction k as [|k IH]; intros st.
  - simpl. lia.
  - cbn [buddhabrotLoop].
    destruct (Complex.sqmagnitude (loop_z st) <=? 2)%float.
    + specialize (IH (mkLoop (loop_n st + 1)
                        (Complex.add (Complex.mul (loop_z st) (loop_z st)) c)
                        (loop_toReturn st ++
                           [Complex.add (Complex.mul (loop_z st) (loop_z st)) c]))).
      cbn [loop_n loop_toReturn] in IH.
      rewrite length_app in IH. cbn [length] in IH. lia.
    + lia.
Qed.

(** A loop left before the bound was left on an iterate that is not
    bounded. *)
Lemma buddhabrotLoop_exit (k : nat) (st : LoopState) :
  loop_n (buddhabrotLoop k c st) < loop_n st + Z.of_nat k ->
  bounded (loop_z (buddhabrotLoop k c st)) = false.
Proof.
  revert st; induction k as [|k IH]; intros st.
  - simpl. lia.
  - cbn [buddhabrotLoop]. unfold bounded in *.
    destruct (Complex.sqmagnitude (loop_z st) <=? 2)%float eqn:E.
    + intros H. apply IH. cbn [loop_n]. lia.
    + intros _. exact E.
Qed.

(** Started on the iterate of index [n], with the earlier iterates in
    [toReturn], the loop keeps this shape. *)
Lemma buddhabrotLoop_orbit (k n : nat) :
  let st := buddhabrotLoop k c
              (mkLoop (Z.of_nat n) (orbit c n) (map (orbit c) (seq 1 n))) in
  exists n' : nat,
    (n <= n' <= n + k)%nat
    /\ st = mkLoop (Z.of_nat n') (orbit c n') (map (orbit c) (seq 1 n'))
    /\ (forall j, (n <= j < n')%nat -> bounded (orbit c j) = true)
    /\ ((n' < n + k)%nat -> bounded (orbit c n') = false).
Proof.
  revert n; induction k as [|k IH]; intros n; cbn zeta.
  - exists n. simpl. repeat split; lia.
  - cbn [buddhabrotLoop loop_z loop_n loop_toReturn].
    fold (bounded (orbit c n)).
    destruct (bounded (orbit c n)) eqn:E.
    + specialize (IH (S n)). cbn zeta in IH.
      replace (Z.of_nat n + 1) with (Z.of_nat (S n)) by lia.
      replace (map (orbit c) (seq 1 n)
                 ++ [Complex.add (Complex.mul (orbit c n) (orbit c n)) c])
        with (map (orbit c) (seq 1 (S n))).
      2:{ rewrite seq_S, map_app. reflexivity. }
      change (Complex.add (Complex.mul (orbit c n) (orbit c n)) c)
        with (orbit c (S n)).
      destruct IH as (n' & Hn' & Hst & Hb & He).
      exists n'. repeat split; try lia; try assumption.
      * intros j Hj. destruct (Nat.eq_dec j n) as [->|Hne]; [exact E|].
        apply Hb. lia.
      * intros H. apply He. lia.
    + exists n. split; [lia|]. split; [reflexivity|].
      split; [intros j Hj; lia | intros _; exact E].
Qed.

End Trajectory.

(** The origin, where every orbit starts, is bounded. *)
Lemma bounded_default : bounded Complex.default = true.
Proof. reflexivity. Qed.

(** What a call returns, in terms of the orbit: the loop stops at the first
    index [n'] whose iterate is not bounded, or at the bound, and the result
    is empty exactly when the counter reached the bound. *)
Lemma buddhabrotPoints_orbit (c : Complex) (nIterations : Z) :
  0 <= nIterations ->
  exists n' : nat,
    (n' <= Z.to_nat nIterations)%nat
    /\ (forall j, (j < n')%nat -> bounded (orbit c j) = true)
    /\ ((n' < Z.to_nat nIterations)%nat -> bounded (orbit c n') = false)
    /\ buddhabrotIterations c nIterations = Z.of_nat n'
    /\ buddhabrotPoints c nIterations
       = Ok (if Z.of_nat n' =? nIterations then []
             else map (orbit c) (seq 1 n')).
Proof.
  intros HN.
  destruct (buddhabrotLoop_orbit c (Z.to_nat nIterations) 0)
    as (n' & Hle & Hst & Hb & He).
  cbn [orbit seq map] in Hst. change (Z.of_nat 0) with 0 in Hst.
  exists n'. split; [lia|]. split; [intros j Hj; apply Hb; lia|].
  split; [intros H; apply He; lia|].
  unfold buddhabrotIterations, buddhabrotPoints, reserve.
  rewrite Hst. cbn [loop_n loop_toReturn].
  split; [reflexivity|].
  destruct (nIterations <? 0) eqn:E; [lia|].
  cbn [mbind result_bind].
  destruct (Z.of_nat n' =? nIterations); reflexivity.
Qed.

(** A candidate whose first [nIterations] iterates [z_0 .. z_(N-1)] are all
    bounded yields nothing, whatever the next iterate is. *)
Lemma buddhabrotPoints_bounded (c : Complex) (nIterations : Z) :
  0 <= nIterations ->
  (forall j, (j < Z.to_nat nIterations)%nat -> bounded (orbit c j) = true) ->
  buddhabrotPoints c nIterations = Ok [].
Proof.
  intros HN Hall.
  destruct (buddhabrotPoints_orbit c nIterations HN)
    as (n' & Hle & Hb & He & _ & ->).
  destruct (Z.of_nat n' =? nIterations) eqn:E; [reflexivity|].
  assert (Hlt : (n' < Z.to_nat nIterations)%nat) by lia.
  rewrite (Hall n' Hlt) in He. discriminate (He Hlt).
Qed.

(** A candidate whose first unbounded iterate has an index [k] below the
    bound yields [z_1 .. z_k]. *)
Lemma buddhabrotPoints_escape (c : Complex) (nIterations : Z) (k : nat) :
  Z.of_nat k < nIterations ->
  (forall j, (j < k)%nat -> bounded (orbit c j) = true) ->
  bounded (orbit c k) = false ->
  buddhabrotPoints c nIterations = Ok (map (orbit c) (seq 1 k)).
Proof.
  intros Hk Hall Hesc.
  destruct (buddhabrotPoints_orbit c nIterations ltac:(lia))
    as (n' & Hle & Hb & He & _ & ->).
  assert (n' = k) as ->.
  { destruct (Nat.lt_trichotomy n' k) as [H|[H|H]]; [|exact H|].
    - rewrite (Hall n' H) in He. discriminate He. lia.
    - rewrite (Hb k H) in Hesc. discriminate. }
  destruct (Z.of_nat k =? nIterations) eqn:E; [lia|reflexivity].
Qed.

(** A candidate whose first iterate is already unbounded yields that one
    point, provided the bound leaves room for a second iteration. *)
Lemma buddhabrotPoints_immediate_escape (c : Complex) (nIterations : Z) :
  2 <= nIterations ->
  bounded (orbit c 1) = false ->
  buddhabrotPoints c nIterations = Ok [orbit c 1].
Proof.
  intros HN Hesc.
  apply (buddhabrotPoints_escape c nIterations 1); [lia| |exact Hesc].
  intros j Hj. replace j with 0%nat by lia. reflexivity.
Qed.

(** C8. Every non-empty trajectory returned by [buddhabrotPoints] is
    strictly shorter than the iteration bound it was called with. *)
Theorem buddhabrotPoints_length_lt
  (c : Complex) (nIterations : Z) (l : list Complex) :
  buddhabrotPoints c nIterations = Ok l ->
  l <> [] ->
  Z.of_nat (length l) < nIterations.
Proof.
  unfold buddhabrotPoints, reserve. intros H Hne.
  destruct (nIterations <? 0) eqn:E; [discriminate|].
  cbn [mbind result_bind] in H.
  pose proof (buddhabrotLoop_counter c (Z.to_nat nIterations)
                (mkLoop 0 Complex.default [])) as [Hn Hlen].
  cbn [loop_n loop_toReturn length] in Hn, Hlen.
  destruct (loop_n _ =? nIterations) eqn:En.
  - injection H as <-. contradiction.
  - injection H as <-. lia.
Qed.

Lemma buddhabrotPoints_length_lt_witness :
  buddhabrotPoints (Complex.mk 0.5 1) 5
  = Ok [Complex.mk 0.5 1; Complex.mk (-0.25) 2]
  /\ Z.of_nat (length [Complex.mk 0.5 1; Complex.mk (-0.25) 2]) < 5.
Proof.
  split; [vm_compute; reflexivity|].
  apply (buddhabrotPoints_length_lt (Complex.mk 0.5 1) 5).
  - vm_compute; reflexivity.
  - discriminate.
Defined.

(** C10, as the code has it. The loop body runs at most [max(N, 0)] times.
    For a bound [N >= 0] the call returns a sequence of at most [N] points,
    empty when [N = 0]; for [N < 0] the call to [reserve] raises
    [std::length_error] and nothing is returned. *)
Theorem buddhabrotPoints_terminates (c : Complex) (nIterations : Z) :
  0 <= buddhabrotIterations c nIterations <= Z.max nIterations 0
  /\ (if nIterations <? 0
      then buddhabrotPoints c nIterations = Throw length_error
      else exists l, buddhabrotPoints c nIterations = Ok l
                     /\ Z.of_nat (length l) <= nIterations)
  /\ buddhabrotPoints c 0 = Ok [].
Proof.
  pose proof (buddhabrotLoop_counter c (Z.to_nat nIterations)
                (mkLoop 0 Complex.default [])) as [Hn Hlen].
  cbn [loop_n loop_toReturn length] in Hn, Hlen.
  split; [unfold buddhabrotIterations; lia|].
  split; [|reflexivity].
  unfold buddhabrotPoints, reserve.
  destruct (nIterations <? 0) eqn:E; [reflexivity|].
  cbn [mbind result_bind].
  destruct (loop_n _ =? nIterations).
  - exists []. split; [reflexivity|]. simpl. lia.
  - eexists. split; [reflexivity|]. lia.
Qed.

(** C10, counterexample: with the bound [-1] no sequence is returned, empty
    or not; the call leaves by [std::length_error]. *)
Lemma buddhabrotPoints_negative_bound_throws :
  buddhabrotPoints (Complex.mk 0 0) (-1) = Throw length_error
  /\ buddhabrotPoints (Complex.mk 0 0) (-1) <> Ok [].
Proof. split; [reflexivity|discriminate]. Qed.

(** C2, counterexample, at [c = 3 + 0i], [N = 1]: the candidate has squared
    magnitude 9 and
    its first iterate is [c] itself, yet the call returns the empty
    sequence, because the counter reached the bound on the iteration that
    escaped.  With the bound 5 the same candidate yields its first
    iterate. *)
Theorem buddhabrotPoints_escape_on_last_iteration_dropped :
  (4 <? Complex.sqmagnitude (Complex.mk 3 0))%float = true
  /\ orbit (Complex.mk 3 0) 1 = Complex.mk 3 0
  /\ (2 <? Complex.sqmagnitude (orbit (Complex.mk 3 0) 1))%float = true
  /\ buddhabrotPoints (Complex.mk 3 0) 1 = Ok []
  /\ buddhabrotPoints (Complex.mk 3 0) 5 = Ok [Complex.mk 3 0].
Proof. repeat split; vm_compute; reflexivity. Qed.

(** C3, counterexample, at [c = -1 + 0.5i], [N = 5], a sample of the red
    pass of [main]:
    the iterates [z_1 .. z_4] are bounded and [z_5] has squared magnitude
    above 7, so the orbit escapes within five iterations, yet the call
    returns the empty sequence; with the bound 6 the five points are
    returned. *)
Theorem buddhabrotPoints_empty_although_escaped :
  let c := Complex.mk (-1) 0.5 in
  orbit c 5 = Complex.mk (-2.6183929443359375) 0.890380859375
  /\ (2 <? Complex.sqmagnitude (orbit c 5))%float = true
  /\ bounded (orbit c 5) = false
  /\ buddhabrotPoints c 5 = Ok []
  /\ buddhabrotPoints c 6 = Ok (map (orbit c) (seq 1 5)).
Proof. cbn zeta. repeat split; vm_compute; reflexivity. Qed.

(** ** Heat maps *)

Section Cells.

Implicit Types (heatmap : Heatmap) (row col : nat) (v : Z).

Lemma getCell_setCell_eq heatmap row col v :
  is_Some (getCell heatmap row col) ->
  getCell (setCell heatmap row col v) row col = Some v.
Proof.
  unfold getCell, setCell. rewrite list_lookup_alter_eq.
  destruct (heatmap !! row) as [line|]; simpl.
  - intros H. apply list_lookup_insert_eq, lookup_lt_is_Some, H.
  - intros [x Hx]. discriminate.
Qed.

Lemma getCell_setCell_ne heatmap row col row' col' v :
  (row, col) <> (row', col') ->
  getCell (setCell heatmap row col v) row' col' = getCell heatmap row' col'.
Proof.
  intros Hne. unfold getCell, setCell.
  destruct (decide (row = row')) as [->|Hrow].
  - rewrite list_lookup_alter_eq.
    destruct (heatmap !! row') as [line|]; simpl; [|reflexivity].
    apply list_lookup_insert_ne. congruence.
  - rewrite list_lookup_alter_ne by assumption. reflexivity.
Qed.

Lemma setCell_comm heatmap row col row' col' v v' :
  (row, col) <> (row', col') ->
  setCell (setCell heatmap row col v) row' col' v'
  = setCell (setCell heatmap row' col' v') row col v.
Proof.
  intros Hne. unfold setCell.
  destruct (decide (row = row')) as [->|Hrow].
  - rewrite !list_alter_alter_eq.
    apply list_alter_ext; [|reflexivity].
    intros line _. simpl. apply list_insert_insert_ne. congruence.
  - apply list_alter_alter_ne. congruence.
Qed.

(** A fresh grid has [height] rows of [width] cells, all zero. *)
Lemma getCell_zeroHeatmap (width height : Z) row col :
  getCell (zeroHeatmap width height) row col
  = if decide ((row < Z.to_nat height)%nat /\ (col < Z.to_nat width)%nat)
    then Some 0 else None.
Proof.
  unfold getCell, zeroHeatmap.
  destruct (decide (row < Z.to_nat height)%nat) as [Hr|Hr].
  - rewrite lookup_replicate_2 by assumption. simpl.
    destruct (decide (col < Z.to_nat width)%nat) as [Hc|Hc].
    + rewrite lookup_replicate_2 by assumption.
      rewrite decide_True by auto. reflexivity.
    + rewrite decide_False by tauto.
      apply lookup_replicate_None. lia.
  - rewrite decide_False by tauto.
    replace (replicate (Z.to_nat height) (replicate (Z.to_nat width) 0)
               !! row) with (@None (list Z)); [reflexivity|].
    symmetry. apply lookup_replicate_None. lia.
Qed.

(** Reading outside a fresh grid has no defined behaviour. *)
Lemma readCell_zeroHeatmap_outside (width height r c : Z) :
  height <= r \/ width <= c ->
  readCell (zeroHeatmap width height) r c = Undefined.
Proof.
  intros H. unfold readCell.
  destruct ((r <? 0) || (c <? 0)) eqn:E; [reflexivity|].
  apply orb_false_iff in E as [Er Ec].
  rewrite getCell_zeroHeatmap, decide_False; [reflexivity|]. lia.
Qed.

End Cells.

(** ** The coordinate mapper and the window test *)

(** C1 at the trajectory of [c = 0.5 + i] in the configuration of [main]:
    its second point [-0.25 + 2i] passes the window test, since the test
    accepts [maximum.i() = 2.0], and its column index is [7000], which is
    [imageWidth]; the increment is outside the grid.  The row index of a
    point with real part [maximum.r()] is [imageHeight] in the same way. *)
Theorem accumulate_at_maximum_out_of_bounds :
  let minimum := Complex.mk (-2) (-2) in
  let maximum := Complex.mk 1 2 in
  let point := Complex.mk (-0.25) 2 in
  buddhabrotPoints (Complex.mk 0.5 1) 5 = Ok [Complex.mk 0.5 1; point]
  /\ inWindow minimum maximum point = true
  /\ colFromImaginary (Complex.i point) (Complex.i minimum)
       (Complex.i maximum) 7000 = Ok 7000
  /\ accumulate 7000 7000 minimum maximum
       (mkAcc (zeroHeatmap 7000 7000) 0) point = Undefined
  /\ inWindow minimum maximum (Complex.mk 1 0) = true
  /\ rowFromReal 1 (Complex.r minimum) (Complex.r maximum) 7000 = Ok 7000.
Proof.
  cbn zeta.
  split; [vm_compute; reflexivity|].
  split; [vm_compute; reflexivity|].
  split; [vm_compute; reflexivity|].
  split; [|split; vm_compute; reflexivity].
  assert (Hw : inWindow (Complex.mk (-2) (-2)) (Complex.mk 1 2)
                 (Complex.mk (-0.25) 2) = true) by (vm_compute; reflexivity).
  assert (Hr : rowFromReal (-0.25) (-2) 1 7000 = Ok 4083)
    by (vm_compute; reflexivity).
  assert (Hc : colFromImaginary 2 (-2) 2 7000 = Ok 7000)
    by (vm_compute; reflexivity).
  unfold accumulate. cbn [Complex.r Complex.i].
  rewrite Hw, Hr, Hc.
  cbn [mbind result_bind o_heatmap]. unfold incrementCell.
  rewrite readCell_zeroHeatmap_outside by lia. reflexivity.
Qed.

(** ** The normalizer *)

(** C4 at [inputValue = maxHeatmapValue = 25], [maxColor = 255]: the scale
    [255.0 / 25] is rounded to a [double] just below [10.2], its product
    with [25] is just below [255], and the conversion to [int] gives [254],
    neither [floor(25 * 255 / 25)] nor the ceiling. *)
Theorem colorFromHeatmap_maximum_below_ceiling :
  colorFromHeatmap 25 25 255 = Ok 254
  /\ 25 * 255 / 25 = 255
  /\ (double_of_Z 25 * (double_of_Z 255 / double_of_Z 25) <? 255)%float = true.
Proof. repeat split; vm_compute; reflexivity. Qed.

(** ** The accumulator *)

Lemma bind_assoc {A B C : Type} (m : result A) (f : A -> result B)
  (g : B -> result C) :
  (m ≫= f) ≫= g = m ≫= (fun a => f a ≫= g).
Proof. destruct m; reflexivity. Qed.

Lemma int_of_double_no_throw (x : float) (e : exception) :
  int_of_double x <> Throw e.
Proof.
  unfold int_of_double. destruct (truncate x) as [v|]; [|discriminate].
  destruct ((INT_MIN <=? v) && (v <=? INT_MAX)); discriminate.
Qed.

Lemma readCell_Ok (heatmap : Heatmap) (row col v : Z) :
  readCell heatmap row col = Ok v <->
  0 <= row /\ 0 <= col
  /\ getCell heatmap (Z.to_nat row) (Z.to_nat col) = Some v.
Proof.
  unfold readCell.
  destruct ((row <? 0) || (col <? 0)) eqn:E.
  - apply orb_true_iff in E. split; [discriminate|]. lia.
  - apply orb_false_iff in E as [Er Ec].
    destruct (getCell heatmap (Z.to_nat row) (Z.to_nat col)) as [w|].
    + split; [intros [= ->]; repeat split; lia | intros (_ & _ & [= ->]); reflexivity].
    + split; [discriminate | intros (_ & _ & [=])].
Qed.

Lemma readCell_cases (heatmap : Heatmap) (row col : Z) :
  readCell heatmap row col = Undefined
  \/ exists v, readCell heatmap row col = Ok v.
Proof.
  unfold readCell. destruct ((row <? 0) || (col <? 0)); [auto|].
  destruct (getCell _ _ _); eauto.
Qed.

Lemma readCell_setCell_eq (heatmap : Heatmap) (row col v w : Z) :
  readCell heatmap row col = Ok v ->
  readCell (setCell heatmap (Z.to_nat row) (Z.to_nat col) w) row col = Ok w.
Proof.
  intros H. apply readCell_Ok in H as (Hr & Hc & Hg).
  apply readCell_Ok. repeat split; try assumption.
  apply getCell_setCell_eq. rewrite Hg. eauto.
Qed.

Lemma readCell_setCell_ne (heatmap : Heatmap) (row col row' col' w : Z) :
  0 <= row -> 0 <= col -> (row, col) <> (row', col') ->
  readCell (setCell heatmap (Z.to_nat row) (Z.to_nat col) w) row' col'
  = readCell heatmap row' col'.
Proof.
  intros Hr Hc Hne. unfold readCell.
  destruct ((row' <? 0) || (col' <? 0)) eqn:E; [reflexivity|].
  apply orb_false_iff in E as [Er Ec].
  rewrite getCell_setCell_ne; [reflexivity|].
  intros [= H1 H2]. apply Hne. f_equal; lia.
Qed.

Section Accumulation.

Variables imageWidth imageHeight : Z.
Variables minimum maximum : Complex.

Local Abbreviation accumulate' :=
  (accumulate imageWidth imageHeight minimum maximum).
Local Abbreviation accumulatePoints' :=
  (accumulatePoints imageWidth imageHeight minimum maximum).
Local Abbreviation binOf' := (binOf imageWidth imageHeight minimum maximum).

Lemma accumulate_binOf (acc : Accumulator) (point : Complex) :
  accumulate' acc point
  = (b ← binOf' point;
     match b with
     | Some (row, col) => countAt acc row col
     | None => Ok acc
     end).
Proof.
  unfold accumulate, binOf, countAt.
  destruct (inWindow minimum maximum point); [|reflexivity].
  destruct (rowFromReal _ _ _ _) as [row| |]; try reflexivity.
  cbn [mbind result_bind].
  destruct (colFromImaginary _ _ _ _) as [col| |]; reflexivity.
Qed.

Lemma binOf_no_throw (point : Complex) (e : exception) :
  binOf' point <> Throw e.
Proof.
  unfold binOf.
  destruct (inWindow minimum maximum point); [|discriminate].
  unfold rowFromReal, colFromImaginary.
  match goal with |- context [int_of_double ?x ≫= _] =>
    pose proof (int_of_double_no_throw x) as Hx;
    destruct (int_of_double x) as [row|e'|] end;
    [|exfalso; apply (Hx e'); reflexivity|discriminate].
  cbn [mbind result_bind].
  match goal with |- context [int_of_double ?x ≫= _] =>
    pose proof (int_of_double_no_throw x) as Hy;
    destruct (int_of_double x) as [col|e'|] end;
    [discriminate|exfalso; apply (Hy e'); reflexivity|discriminate].
Qed.

(** Counting in a cell of the grid: the cell goes from [v] to [v + 1]
    modulo [2^32] and the maximum becomes the larger of itself and the
    new value. *)
Lemma countAt_Ok (acc : Accumulator) (row col v : Z) :
  readCell (o_heatmap acc) row col = Ok v ->
  countAt acc row col
  = Ok (mkAcc (setCell (o_heatmap acc) (Z.to_nat row) (Z.to_nat col)
                 (HeatmapType_wrap (v + 1)))
          (Z.max (o_maxHeatmapValue acc) (HeatmapType_wrap (v + 1)))).
Proof.
  intros H. unfold countAt, incrementCell. rewrite H.
  cbn [mbind result_bind].
  rewrite (readCell_setCell_eq _ _ _ v) by assumption.
  cbn [mbind result_bind]. f_equal. f_equal.
  destruct (o_maxHeatmapValue acc <? HeatmapType_wrap (v + 1)) eqn:E; lia.
Qed.

Lemma countAt_Undefined (acc : Accumulator) (row col : Z) :
  readCell (o_heatmap acc) row col = Undefined ->
  countAt acc row col = Undefined.
Proof. intros H. unfold countAt, incrementCell. rewrite H. reflexivity. Qed.

(** Two countings commute, outcomes included. *)
Lemma countAt_comm (acc : Accumulator) (row col row' col' : Z) :
  (countAt acc row col ≫= fun a => countAt a row' col')
  = (countAt acc row' col' ≫= fun a => countAt a row col).
Proof.
  destruct (decide ((row, col) = (row', col'))) as [[= -> ->]|Hne];
    [reflexivity|].
  destruct (readCell_cases (o_heatmap acc) row col) as [H1|[v1 H1]];
    destruct (readCell_cases (o_heatmap acc) row' col') as [H2|[v2 H2]].
  - rewrite !countAt_Undefined by assumption. reflexivity.
  - rewrite (countAt_Undefined _ _ _ H1), (countAt_Ok _ _ _ _ H2).
    cbn [mbind result_bind]. rewrite countAt_Undefined; [reflexivity|].
    cbn [o_heatmap]. apply readCell_Ok in H2 as (? & ? & _).
    rewrite readCell_setCell_ne by (auto; congruence). exact H1.
  - rewrite (countAt_Undefined _ _ _ H2), (countAt_Ok _ _ _ _ H1).
    cbn [mbind result_bind]. rewrite countAt_Undefined; [reflexivity|].
    cbn [o_heatmap]. apply readCell_Ok in H1 as (? & ? & _).
    rewrite readCell_setCell_ne by (auto; congruence). exact H2.
  - rewrite (countAt_Ok _ _ _ _ H1), (countAt_Ok _ _ _ _ H2).
    cbn [mbind result_bind].
    pose proof H1 as (? & ? & _)%readCell_Ok.
    pose proof H2 as (? & ? & _)%readCell_Ok.
    rewrite (countAt_Ok _ _ _ v2), (countAt_Ok _ _ _ v1);
      cbn [o_heatmap o_maxHeatmapValue];
      try (rewrite readCell_setCell_ne by (auto; congruence); assumption).
    f_equal. f_equal; [|lia].
    apply setCell_comm. intros [= Hr Hc]. apply Hne. f_equal; lia.
Qed.

Lemma countAt_no_throw (acc : Accumulator) (row col : Z) (e : exception) :
  countAt acc row col <> Throw e.
Proof.
  destruct (readCell_cases (o_heatmap acc) row col) as [H|[v H]].
  - rewrite countAt_Undefined by assumption. discriminate.
  - rewrite (countAt_Ok _ _ _ _ H). discriminate.
Qed.

(** The step on a cell already chosen, or on none. *)
Local Abbreviation countIn' acc b :=
  (match b with
   | Some (row, col) => countAt acc row col
   | None => Ok acc
   end).

Lemma countIn_comm (acc : Accumulator) (b b' : option (Z * Z)) :
  (countIn' acc b ≫= fun a => countIn' a b')
  = (countIn' acc b' ≫= fun a => countIn' a b).
Proof.
  destruct b as [[row col]|], b' as [[row' col']|]; cbn [mbind result_bind].
  - apply countAt_comm.
  - destruct (countAt acc row col); reflexivity.
  - destruct (countAt acc row' col'); reflexivity.
  - reflexivity.
Qed.

Lemma countIn_then_Undefined (acc : Accumulator) (b : option (Z * Z)) :
  (countIn' acc b ≫= fun _ => @Undefined Accumulator) = Undefined.
Proof.
  destruct b as [[row col]|]; [|reflexivity].
  pose proof (countAt_no_throw acc row col) as H.
  destruct (countAt acc row col) as [a|e|]; try reflexivity.
  exfalso. apply (H e). reflexivity.
Qed.

(** Two points handed to [accumulate] in either order leave the same grid
    and the same maximum, or both orders are undefined. *)
Lemma accumulate_comm (acc : Accumulator) (p q : Complex) :
  (accumulate' acc p ≫= fun a => accumulate' a q)
  = (accumulate' acc q ≫= fun a => accumulate' a p).
Proof.
  pose proof (binOf_no_throw p) as Hp. pose proof (binOf_no_throw q) as Hq.
  rewrite (accumulate_binOf acc p), (accumulate_binOf acc q).
  destruct (binOf' p) as [b|e|] eqn:Ep;
    [|exfalso; apply (Hp e); reflexivity|];
    (destruct (binOf' q) as [b'|e'|] eqn:Eq;
     [|exfalso; apply (Hq e'); reflexivity|]);
    cbn [mbind result_bind].
  - transitivity (countIn' acc b ≫= fun a => countIn' a b').
    { destruct (countIn' acc b) as [a| |]; cbn [mbind result_bind];
        try reflexivity.
      rewrite accumulate_binOf, Eq. reflexivity. }
    rewrite countIn_comm.
    destruct (countIn' acc b') as [a| |]; cbn [mbind result_bind];
      try reflexivity.
    rewrite accumulate_binOf, Ep. reflexivity.
  - rewrite <- (countIn_then_Undefined acc b).
    destruct (countIn' acc b) as [a| |]; cbn [mbind result_bind];
      try reflexivity.
    rewrite accumulate_binOf, Eq. reflexivity.
  - rewrite <- (countIn_then_Undefined acc b') at 1.
    destruct (countIn' acc b') as [a| |]; cbn [mbind result_bind];
      try reflexivity.
    rewrite accumulate_binOf, Ep. reflexivity.
  - reflexivity.
Qed.

End Accumulation.

(** C7. Two orderings of the same points, accumulated from a fresh grid
    and a zero maximum, give the same outcome: the same final grid and the
    same final maximum (and when a point of the multiset is counted outside
    the grid, neither ordering has a defined result). *)
Theorem accumulatePoints_order_independent
  (imageWidth imageHeight : Z) (minimum maximum : Complex)
  (l1 l2 : list Complex) :
  Permutation l1 l2 ->
  accumulatePoints imageWidth imageHeight minimum maximum
    (mkAcc (zeroHeatmap imageWidth imageHeight) 0) l1
  = accumulatePoints imageWidth imageHeight minimum maximum
      (mkAcc (zeroHeatmap imageWidth imageHeight) 0) l2.
Proof.
  intros H. generalize (mkAcc (zeroHeatmap imageWidth imageHeight) 0).
  induction H as [|x l1 l2 _ IH|x y l|l1 l2 l3 _ IH1 _ IH2]; intros acc.
  - reflexivity.
  - cbn [accumulatePoints].
    destruct (accumulate imageWidth imageHeight minimum maximum acc x);
      cbn [mbind result_bind]; auto.
  - cbn [accumulatePoints]. rewrite <- !bind_assoc.
    rewrite (accumulate_comm imageWidth imageHeight minimum maximum acc y x).
    reflexivity.
  - rewrite IH1. apply IH2.
Qed.

Lemma accumulatePoints_order_independent_witness :
  let minimum := Complex.mk (-2) (-2) in
  let maximum := Complex.mk 1 2 in
  let p := Complex.mk 0.5 0.75 in
  let q := Complex.mk 0.1875 1.5 in
  accumulatePoints 4 4 minimum maximum (mkAcc (zeroHeatmap 4 4) 0) [p; q; p]
  = accumulatePoints 4 4 minimum maximum (mkAcc (zeroHeatmap 4 4) 0) [q; p; p]
  /\ accumulatePoints 4 4 minimum maximum (mkAcc (zeroHeatmap 4 4) 0) [q; p; p]
     = Ok (mkAcc [[0; 0; 0; 0]; [0; 0; 0; 0]; [0; 0; 0; 1]; [0; 0; 2; 0]] 2).
Proof.
  cbn zeta. split.
  - apply (accumulatePoints_order_independent 4 4
             (Complex.mk (-2) (-2)) (Complex.mk 1 2)
             [Complex.mk 0.5 0.75; Complex.mk 0.1875 1.5; Complex.mk 0.5 0.75]
             [Complex.mk 0.1875 1.5; Complex.mk 0.5 0.75; Complex.mk 0.5 0.75]).
    apply perm_swap.
  - vm_compute. reflexivity.
Defined.

(** ** The shared maximum *)

Lemma maximumOf_nonneg (l : list Z) : 0 <= maximumOf l.
Proof. induction l as [|x l IH]; simpl; lia. Qed.

Lemma maximumOf_app (l1 l2 : list Z) :
  maximumOf (l1 ++ l2) = Z.max (maximumOf l1) (maximumOf l2).
Proof.
  pose proof (maximumOf_nonneg l2).
  induction l1 as [|x l1 IH]; simpl; [lia|]. fold (maximumOf (l1 ++ l2)).
  fold (maximumOf l1). lia.
Qed.

Lemma HeatmapType_wrap_range (v : Z) : 0 <= HeatmapType_wrap v < UINT_MODULUS.
Proof. unfold HeatmapType_wrap. apply Z.mod_pos_bound. reflexivity. Qed.

Lemma accumulatePoints_app
  (imageWidth imageHeight : Z) (minimum maximum : Complex)
  (l1 l2 : list Complex) (acc : Accumulator) :
  accumulatePoints imageWidth imageHeight minimum maximum acc (l1 ++ l2)
  = (a ← accumulatePoints imageWidth imageHeight minimum maximum acc l1;
     accumulatePoints imageWidth imageHeight minimum maximum a l2).
Proof.
  revert acc; induction l1 as [|p l1 IH]; intros acc; [reflexivity|].
  cbn [app accumulatePoints]. rewrite bind_assoc.
  destruct (accumulate _ _ _ _ acc p); cbn [mbind result_bind]; auto.
Qed.

Section Sampling.

Variables imageWidth imageHeight : Z.
Variables minimum maximum : Complex.

Local Abbreviation accumulate' :=
  (accumulate imageWidth imageHeight minimum maximum).
Local Abbreviation accumulatePoints' :=
  (accumulatePoints imageWidth imageHeight minimum maximum).
Local Abbreviation accumulateIn' :=
  (accumulateIn imageWidth imageHeight minimum maximum).
Local Abbreviation accumulateEvents' :=
  (accumulateEvents imageWidth imageHeight minimum maximum).
Local Abbreviation observedValue' :=
  (observedValue imageWidth imageHeight minimum maximum).
Local Abbreviation observedValues' :=
  (observedValues imageWidth imageHeight minimum maximum).

(** One step: the maximum becomes the larger of itself and the value
    observed in the incremented cell, if a cell was incremented. *)
Lemma accumulate_observed (acc acc' : Accumulator) (point : Complex) :
  accumulate' acc point = Ok acc' ->
  0 <= o_maxHeatmapValue acc ->
  o_maxHeatmapValue acc'
  = Z.max (o_maxHeatmapValue acc)
      (maximumOf (observedValue' (o_heatmap acc) point)).
Proof.
  rewrite accumulate_binOf. unfold observedValue.
  destruct (binOf _ _ _ _ point) as [[[row col]|]| |];
    cbn [mbind result_bind]; try discriminate.
  - destruct (readCell_cases (o_heatmap acc) row col) as [H|[v H]].
    + rewrite countAt_Undefined by assumption. discriminate.
    + rewrite (countAt_Ok _ _ _ _ H). intros [= <-] Hm.
      unfold incrementCell. rewrite H. cbn [mbind result_bind].
      rewrite (readCell_setCell_eq _ _ _ v) by assumption.
      cbn [o_maxHeatmapValue maximumOf fold_right].
      pose proof (HeatmapType_wrap_range (v + 1)). lia.
  - intros [= <-] Hm. simpl. lia.
Qed.

Lemma accumulateIn_observed (s s' : Channels) (ev : Channel * Complex) :
  accumulateIn' s ev = Ok s' ->
  0 <= maxHeatmapValue s ->
  maxHeatmapValue s'
  = Z.max (maxHeatmapValue s)
      (maximumOf (observedValue' (channelHeatmap (fst ev) s) (snd ev))).
Proof.
  unfold accumulateIn. intros H Hm. inv_bind H.
  injection H as <-.
  apply accumulate_observed in Ha; [|assumption].
  cbn [o_heatmap o_maxHeatmapValue] in Ha.
  destruct (fst ev); cbn [updateChannel maxHeatmapValue]; exact Ha.
Qed.

(** A run: the maximum is the larger of its initial value and the values
    observed along the run. *)
Lemma accumulateEvents_observed
  (evs : list (Channel * Complex)) (s s' : Channels) :
  accumulateEvents' s evs = Ok s' ->
  0 <= maxHeatmapValue s ->
  maxHeatmapValue s'
  = Z.max (maxHeatmapValue s) (maximumOf (observedValues' s evs)).
Proof.
  revert s; induction evs as [|ev evs IH]; intros s H Hm.
  - injection H as <-. simpl. lia.
  - cbn [accumulateEvents observedValues] in *.
    inv_bind H. rewrite Ha.
    pose proof (accumulateIn_observed _ _ _ Ha Hm) as H1.
    pose proof (maximumOf_nonneg
                  (observedValue' (channelHeatmap (fst ev) s) (snd ev))).
    rewrite maximumOf_app, (IH a H) by lia. lia.
Qed.

Lemma accumulateEvents_app
  (evs1 evs2 : list (Channel * Complex)) (s : Channels) :
  accumulateEvents' s (evs1 ++ evs2)
  = (s' ← accumulateEvents' s evs1; accumulateEvents' s' evs2).
Proof.
  revert s; induction evs1 as [|ev evs1 IH]; intros s; [reflexivity|].
  cbn [app accumulateEvents]. rewrite bind_assoc.
  destruct (accumulateIn' s ev); cbn [mbind result_bind]; auto.
Qed.

(** A run of points of one channel is [accumulatePoints] on the grid of
    that channel and the shared maximum. *)
Lemma accumulateEvents_channel
  (ch : Channel) (l : list Complex) (s : Channels) :
  accumulateEvents' s (map (pair ch) l)
  = (acc ← accumulatePoints'
             (mkAcc (channelHeatmap ch s) (maxHeatmapValue s)) l;
     Ok (updateChannel ch s acc)).
Proof.
  revert s; induction l as [|p l IH]; intros s.
  - destruct s, ch; reflexivity.
  - cbn [map accumulateEvents accumulatePoints].
    unfold accumulateIn at 1. cbn [fst snd].
    rewrite !bind_assoc.
    destruct (accumulate' _ p) as [acc1| |]; cbn [mbind result_bind];
      try reflexivity.
    rewrite IH.
    replace (mkAcc (channelHeatmap ch (updateChannel ch s acc1))
               (maxHeatmapValue (updateChannel ch s acc1))) with acc1
      by (destruct acc1, ch; reflexivity).
    destruct (accumulatePoints' acc1 l) as [acc2| |]; cbn [mbind result_bind];
      try reflexivity.
    destruct ch; reflexivity.
Qed.

Lemma sampleLoop_points (nIterations : Z) (rng : nat -> Complex)
  (k : nat) (sampleIdx n : Z) (acc acc' : Accumulator) :
  sampleLoop imageWidth imageHeight minimum maximum nIterations rng
    k sampleIdx acc = Ok (acc', n) ->
  0 <= sampleIdx ->
  accumulatePoints' acc (passPoints nIterations rng (Z.to_nat sampleIdx) k)
  = Ok acc'
  /\ n = sampleIdx + Z.of_nat k.
Proof.
  revert sampleIdx acc; induction k as [|k IH]; intros sampleIdx acc H Hidx.
  - injection H as <- <-. split; [reflexivity|lia].
  - cbn [sampleLoop] in H. inv_bind H. rename a into pointsList.
    inv_bind H. rename a into acc1.
    apply IH in H as [Hrest ->]; [|lia].
    split; [|lia].
    unfold passPoints in *. cbn [seq flat_map]. rewrite Ha.
    rewrite accumulatePoints_app, Ha0. cbn [mbind result_bind].
    replace (S (Z.to_nat sampleIdx)) with (Z.to_nat (sampleIdx + 1)) by lia.
    exact Hrest.
Qed.

(** A call that returns has drawn [max(nSamples, 0)] samples and has
    accumulated their trajectories in order. *)
Lemma GenerateHeatmap_points (nIterations : Z) (rng : nat -> Complex)
  (nSamples n : Z) (acc acc' : Accumulator) :
  GenerateHeatmap imageWidth imageHeight minimum maximum nIterations rng
    nSamples acc = Ok (acc', n) ->
  accumulatePoints' acc (passPoints nIterations rng 0 (Z.to_nat nSamples))
  = Ok acc'
  /\ n = Z.max nSamples 0.
Proof.
  unfold GenerateHeatmap. intros H. inv_bind H. inv_bind H.
  apply sampleLoop_points in H as [Hacc ->]; [|lia].
  split; [exact Hacc|lia].
Qed.

End Sampling.

(** The sampling phase of [main], when it completes, is the run of its
    events from the fresh state. *)
Lemma generateChannels_events
  (MINIMUM MAXIMUM : Complex) (IMAGE_HEIGHT IMAGE_WIDTH : Z)
  (RED_ITERS BLUE_ITERS GREEN_ITERS SAMPLE_COUNT : Z)
  (rngRed rngGreen rngBlue : nat -> Complex) (s : Channels) :
  generateChannels MINIMUM MAXIMUM IMAGE_HEIGHT IMAGE_WIDTH
    RED_ITERS BLUE_ITERS GREEN_ITERS SAMPLE_COUNT rngRed rngGreen rngBlue
  = Ok s ->
  accumulateEvents IMAGE_WIDTH IMAGE_HEIGHT MINIMUM MAXIMUM
    (freshChannels IMAGE_WIDTH IMAGE_HEIGHT)
    (samplingEvents RED_ITERS BLUE_ITERS GREEN_ITERS SAMPLE_COUNT
       rngRed rngGreen rngBlue)
  = Ok s.
Proof.
  unfold generateChannels, AllocHeatmap. intros H.
  destruct (IMAGE_HEIGHT <? 0); [discriminate|].
  destruct ((0 <? IMAGE_HEIGHT) && (IMAGE_WIDTH <? 0)); [discriminate|].
  cbn [mbind result_bind] in H.
  inv_bind H. destruct a as [accR nR].
  inv_bind H. destruct a as [accG nG].
  inv_bind H. destruct a as [accB nB].
  injection H as <-. cbn [fst] in *.
  apply GenerateHeatmap_points in Ha as [HR _].
  apply GenerateHeatmap_points in Ha0 as [HG _].
  apply GenerateHeatmap_points in Ha1 as [HB _].
  unfold samplingEvents, passEvents, freshChannels.
  rewrite accumulateEvents_app.
  rewrite (accumulateEvents_channel _ _ _ _ Red).
  cbn [channelHeatmap red maxHeatmapValue]. rewrite HR.
  cbn [mbind result_bind]. rewrite accumulateEvents_app.
  rewrite (accumulateEvents_channel _ _ _ _ Green).
  cbn [channelHeatmap updateChannel green maxHeatmapValue]. rewrite HG.
  cbn [mbind result_bind].
  rewrite (accumulateEvents_channel _ _ _ _ Blue).
  cbn [channelHeatmap updateChannel blue maxHeatmapValue]. rewrite HB.
  reflexivity.
Qed.

(** C9. At every step of the three sequential passes, that is after every
    initial part [done] of the points they accumulate, and so also at the
    end of [generateChannels], the shared maximum is the greatest cell
    value observed at the increments completed so far, in whichever grid
    they took place; it is zero when there was none. *)
Theorem maxHeatmapValue_is_maximum_observed
  (MINIMUM MAXIMUM : Complex) (IMAGE_HEIGHT IMAGE_WIDTH : Z)
  (RED_ITERS BLUE_ITERS GREEN_ITERS SAMPLE_COUNT : Z)
  (rngRed rngGreen rngBlue : nat -> Complex) :
  let fresh := freshChannels IMAGE_WIDTH IMAGE_HEIGHT in
  let events := samplingEvents RED_ITERS BLUE_ITERS GREEN_ITERS SAMPLE_COUNT
                  rngRed rngGreen rngBlue in
  maxHeatmapValue fresh = 0
  /\ (forall (done rest : list (Channel * Complex)) (s : Channels),
        events = done ++ rest ->
        accumulateEvents IMAGE_WIDTH IMAGE_HEIGHT MINIMUM MAXIMUM fresh done
        = Ok s ->
        maxHeatmapValue s
        = maximumOf (observedValues IMAGE_WIDTH IMAGE_HEIGHT MINIMUM MAXIMUM
                       fresh done))
  /\ (forall s : Channels,
        generateChannels MINIMUM MAXIMUM IMAGE_HEIGHT IMAGE_WIDTH
          RED_ITERS BLUE_ITERS GREEN_ITERS SAMPLE_COUNT
          rngRed rngGreen rngBlue = Ok s ->
        maxHeatmapValue s
        = maximumOf (observedValues IMAGE_WIDTH IMAGE_HEIGHT MINIMUM MAXIMUM
                       fresh events)).
Proof.
  cbn zeta. split; [reflexivity|]. split.
  - intros done rest s _ H.
    apply accumulateEvents_observed in H; [|cbn; lia].
    rewrite H. cbn [freshChannels maxHeatmapValue].
    pose proof (maximumOf_nonneg
                  (observedValues IMAGE_WIDTH IMAGE_HEIGHT MINIMUM MAXIMUM
                     (freshChannels IMAGE_WIDTH IMAGE_HEIGHT) done)).
    fold (freshChannels IMAGE_WIDTH IMAGE_HEIGHT). lia.
  - intros s H. apply generateChannels_events in H.
    apply accumulateEvents_observed in H; [|cbn; lia].
    rewrite H. cbn [freshChannels maxHeatmapValue].
    pose proof (maximumOf_nonneg
                  (observedValues IMAGE_WIDTH IMAGE_HEIGHT MINIMUM MAXIMUM
                     (freshChannels IMAGE_WIDTH IMAGE_HEIGHT)
                     (samplingEvents RED_ITERS BLUE_ITERS GREEN_ITERS
                        SAMPLE_COUNT rngRed rngGreen rngBlue))).
    fold (freshChannels IMAGE_WIDTH IMAGE_HEIGHT). lia.
Qed.

Lemma maxHeatmapValue_is_maximum_observed_witness :
  let MINIMUM := Complex.mk (-2) (-2) in
  let MAXIMUM := Complex.mk 1 2 in
  let rngRed := fun _ : nat => Complex.mk 0.5 0.75 in
  let rngOther := fun _ : nat => Complex.mk (-1) 0 in
  let s := mkChannels
             [[0; 0; 0; 0]; [0; 0; 0; 0]; [0; 0; 0; 2]; [0; 0; 2; 0]]
             (zeroHeatmap 4 4) (zeroHeatmap 4 4) 2 in
  generateChannels MINIMUM MAXIMUM 4 4 5 50 50 2 rngRed rngOther rngOther
  = Ok s
  /\ observedValues 4 4 MINIMUM MAXIMUM (freshChannels 4 4)
       (samplingEvents 5 50 50 2 rngRed rngOther rngOther) = [1; 1; 2; 2]
  /\ maxHeatmapValue s
     = maximumOf (observedValues 4 4 MINIMUM MAXIMUM (freshChannels 4 4)
                    (samplingEvents 5 50 50 2 rngRed rngOther rngOther)).
Proof.
  cbn zeta.
  split; [vm_compute; reflexivity|].
  split; [vm_compute; reflexivity|].
  apply (maxHeatmapValue_is_maximum_observed
           (Complex.mk (-2) (-2)) (Complex.mk 1 2) 4 4 5 50 50 2
           (fun _ : nat => Complex.mk 0.5 0.75)
           (fun _ : nat => Complex.mk (-1) 0)
           (fun _ : nat => Complex.mk (-1) 0)).
  vm_compute. reflexivity.
Defined.

(** ** A maximum that is still zero *)

Section ZeroMaximum.

Variables imageWidth imageHeight : Z.
Variables minimum maximum : Complex.

Local Abbreviation accumulate' :=
  (accumulate imageWidth imageHeight minimum maximum).
Local Abbreviation accumulateIn' :=
  (accumulateIn imageWidth imageHeight minimum maximum).
Local Abbreviation accumulateEvents' :=
  (accumulateEvents imageWidth imageHeight minimum maximum).

(** The maximum never decreases. *)
Lemma accumulate_maximum_mono (acc acc' : Accumulator) (point : Complex) :
  accumulate' acc point = Ok acc' ->
  o_maxHeatmapValue acc <= o_maxHeatmapValue acc'.
Proof.
  rewrite accumulate_binOf.
  destruct (binOf _ _ _ _ point) as [[[row col]|]| |];
    cbn [mbind result_bind]; try discriminate.
  - destruct (readCell_cases (o_heatmap acc) row col) as [H|[v H]].
    + rewrite countAt_Undefined by assumption. discriminate.
    + rewrite (countAt_Ok _ _ _ _ H). intros [= <-]. cbn. lia.
  - intros [= <-]. lia.
Qed.

Lemma accumulateIn_maximum_mono (s s' : Channels) (ev : Channel * Complex) :
  accumulateIn' s ev = Ok s' -> maxHeatmapValue s <= maxHeatmapValue s'.
Proof.
  unfold accumulateIn. intros H. inv_bind H. injection H as <-.
  apply accumulate_maximum_mono in Ha. cbn [o_maxHeatmapValue] in Ha.
  destruct (fst ev); exact Ha.
Qed.

Lemma accumulateEvents_maximum_mono
  (evs : list (Channel * Complex)) (s s' : Channels) :
  accumulateEvents' s evs = Ok s' -> maxHeatmapValue s <= maxHeatmapValue s'.
Proof.
  revert s; induction evs as [|ev evs IH]; intros s H.
  - injection H as <-. lia.
  - cbn [accumulateEvents] in H. inv_bind H.
    apply accumulateIn_maximum_mono in Ha. apply IH in H. lia.
Qed.

(** Counting in a fresh grid raises the maximum to one: a step from a fresh
    grid that leaves the maximum at zero has counted nothing. *)
Lemma accumulate_fresh_fixed (width height : Z) (acc' : Accumulator)
  (point : Complex) :
  accumulate' (mkAcc (zeroHeatmap width height) 0) point = Ok acc' ->
  o_maxHeatmapValue acc' = 0 ->
  acc' = mkAcc (zeroHeatmap width height) 0.
Proof.
  rewrite accumulate_binOf.
  destruct (binOf _ _ _ _ point) as [[[row col]|]| |];
    cbn [mbind result_bind]; try discriminate.
  - cbn [o_heatmap].
    destruct (readCell_cases (zeroHeatmap width height) row col)
      as [H|[v H]].
    + rewrite countAt_Undefined by assumption. discriminate.
    + rewrite (countAt_Ok (mkAcc (zeroHeatmap width height) 0) _ _ _ H).
      intros [= <-].
      cbn [o_maxHeatmapValue]. intros Hmax. exfalso.
      apply readCell_Ok in H as (_ & _ & H).
      rewrite getCell_zeroHeatmap in H.
      destruct (decide _); [|discriminate]. injection H as <-.
      vm_compute in Hmax. discriminate.
  - intros [= <-] _. reflexivity.
Qed.

Lemma accumulateEvents_fresh_fixed
  (width height : Z) (evs : list (Channel * Complex)) (s' : Channels) :
  accumulateEvents' (freshChannels width height) evs = Ok s' ->
  maxHeatmapValue s' = 0 ->
  s' = freshChannels width height.
Proof.
  induction evs as [|ev evs IH]; intros H Hmax.
  - injection H as <-. reflexivity.
  - cbn [accumulateEvents] in H. inv_bind H. rename a into s1.
    pose proof (accumulateIn_maximum_mono _ _ _ Ha) as H0.
    pose proof (accumulateEvents_maximum_mono _ _ _ H) as H1.
    cbn [freshChannels maxHeatmapValue] in H0.
    assert (Hs1 : s1 = freshChannels width height).
    { unfold accumulateIn in Ha. inv_bind Ha.
      injection Ha as <-.
      destruct ev as [ch point].
      cbn [fst snd freshChannels maxHeatmapValue] in *.
      replace (channelHeatmap ch (freshChannels width height))
        with (zeroHeatmap width height) in Ha0 by (destruct ch; reflexivity).
      apply accumulate_fresh_fixed in Ha0.
      - subst a. destruct ch; reflexivity.
      - destruct ch; cbn [updateChannel maxHeatmapValue] in H0, H1; lia. }
    subst s1. apply IH; assumption.
Qed.

End ZeroMaximum.

(** With a zero maximum the scale is [255.0 / 0.0 = +infinity]; on a zero
    counter the product is NaN, which no [int] represents. *)
Lemma colorFromHeatmap_zero_maximum :
  (double_of_Z 255 / double_of_Z 0)%float = infinity
  /\ colorFromHeatmap 0 0 255 = Undefined.
Proof. split; vm_compute; reflexivity. Qed.

Lemma scaleHeatmap_zero_undefined (width height : Z) :
  0 < width -> 0 < height ->
  scaleHeatmap 0 255 (zeroHeatmap width height) = Undefined.
Proof.
  intros Hw Hh. unfold zeroHeatmap.
  destruct (Z.to_nat height) as [|h] eqn:Eh; [lia|].
  destruct (Z.to_nat width) as [|w] eqn:Ew; [lia|].
  cbn [replicate scaleHeatmap scaleLine].
  rewrite (proj2 colorFromHeatmap_zero_maximum). reflexivity.
Qed.

(** C5, as the code has it. When the three passes complete with the maximum
    still at zero, the grids are untouched and nothing is reported: [main]
    goes on to the normalisation, where [colorFromHeatmap] divides [255.0]
    by zero and converts NaN to [int], so the run has no defined result. *)
Theorem mainWith_zero_maximum_not_reported
  (MINIMUM MAXIMUM : Complex) (IMAGE_HEIGHT IMAGE_WIDTH : Z)
  (RED_ITERS BLUE_ITERS GREEN_ITERS SAMPLE_COUNT : Z)
  (rngRed rngGreen rngBlue : nat -> Complex) (s : Channels) :
  0 < IMAGE_WIDTH -> 0 < IMAGE_HEIGHT ->
  generateChannels MINIMUM MAXIMUM IMAGE_HEIGHT IMAGE_WIDTH
    RED_ITERS BLUE_ITERS GREEN_ITERS SAMPLE_COUNT rngRed rngGreen rngBlue
  = Ok s ->
  maxHeatmapValue s = 0 ->
  s = freshChannels IMAGE_WIDTH IMAGE_HEIGHT
  /\ (double_of_Z 255 / double_of_Z (maxHeatmapValue s))%float = infinity
  /\ scaleChannels s = Undefined
  /\ mainWith MINIMUM MAXIMUM IMAGE_HEIGHT IMAGE_WIDTH
       RED_ITERS BLUE_ITERS GREEN_ITERS SAMPLE_COUNT
       rngRed rngGreen rngBlue true = Undefined.
Proof.
  intros Hw Hh Hgen Hmax.
  assert (Hs : s = freshChannels IMAGE_WIDTH IMAGE_HEIGHT).
  { apply generateChannels_events in Hgen.
    eapply accumulateEvents_fresh_fixed; eassumption. }
  assert (Hscale : scaleChannels s = Undefined).
  { subst s. unfold scaleChannels. cbn [freshChannels maxHeatmapValue red].
    rewrite scaleHeatmap_zero_undefined by assumption. reflexivity. }
  split; [exact Hs|]. split; [rewrite Hmax; reflexivity|].
  split; [exact Hscale|].
  unfold mainWith. cbn [negb]. rewrite Hgen. cbn [mbind result_bind].
  rewrite Hscale. reflexivity.
Qed.

Lemma mainWith_zero_maximum_not_reported_witness :
  let MINIMUM := Complex.mk (-2) (-2) in
  let MAXIMUM := Complex.mk 1 2 in
  let rng := fun _ : nat => Complex.mk (-1) 0 in
  generateChannels MINIMUM MAXIMUM 4 4 5 50 50 1 rng rng rng
  = Ok (freshChannels 4 4)
  /\ mainWith MINIMUM MAXIMUM 4 4 5 50 50 1 rng rng rng true = Undefined.
Proof.
  cbn zeta. split; [vm_compute; reflexivity|].
  apply (mainWith_zero_maximum_not_reported
           (Complex.mk (-2) (-2)) (Complex.mk 1 2) 4 4 5 50 50 1
           (fun _ : nat => Complex.mk (-1) 0)
           (fun _ : nat => Complex.mk (-1) 0)
           (fun _ : nat => Complex.mk (-1) 0)
           (freshChannels 4 4)).
  - lia.
  - lia.
  - vm_compute. reflexivity.
  - reflexivity.
Defined.

(** C5, counterexample: window [-2-2i, 1+2i], a 4 x 4 grid, one sample
    [c = -1] per channel.  No orbit escapes, the maximum stays zero, and the
    run is neither a failure exit nor an exception: the division by the
    maximum is carried out and its NaN product converted to [int]. *)
Lemma mainWith_zero_maximum_divides :
  let MINIMUM := Complex.mk (-2) (-2) in
  let MAXIMUM := Complex.mk 1 2 in
  let rng := fun _ : nat => Complex.mk (-1) 0 in
  generateChannels MINIMUM MAXIMUM 4 4 5 50 50 1 rng rng rng
  = Ok (freshChannels 4 4)
  /\ maxHeatmapValue (freshChannels 4 4) = 0
  /\ (double_of_Z 255 / double_of_Z 0)%float = infinity
  /\ colorFromHeatmap 0 0 255 = Undefined
  /\ mainWith MINIMUM MAXIMUM 4 4 5 50 50 1 rng rng rng true = Undefined.
Proof. cbn zeta. repeat split; vm_compute; reflexivity. Qed.

(** ** Configurations the driver is not meant for *)

Section Unvalidated.

Variables imageWidth imageHeight : Z.
Variables minimum maximum : Complex.
Variable rng : nat -> Complex.

Local Abbreviation sampleLoop' nIterations :=
  (sampleLoop imageWidth imageHeight minimum maximum nIterations rng).

(** With the bound zero every trajectory is empty: the samples are drawn
    and the accumulator is left as it was. *)
Lemma sampleLoop_zero_bound (k : nat) (sampleIdx : Z) (acc : Accumulator) :
  sampleLoop' 0 k sampleIdx acc = Ok (acc, sampleIdx + Z.of_nat k).
Proof.
  revert sampleIdx; induction k as [|k IH]; intros sampleIdx.
  - cbn. f_equal. f_equal. lia.
  - cbn [sampleLoop].
    replace (buddhabrotPoints (rng (Z.to_nat sampleIdx)) 0)
      with (Ok (@nil Complex)) by reflexivity.
    cbn [mbind result_bind accumulatePoints]. rewrite IH.
    f_equal. f_equal. lia.
Qed.

(** With a negative bound the first trajectory is never built. *)
Lemma sampleLoop_negative_bound
  (nIterations : Z) (k : nat) (sampleIdx : Z) (acc : Accumulator) :
  nIterations < 0 ->
  sampleLoop' nIterations (S k) sampleIdx acc = Throw length_error.
Proof.
  intros H. cbn [sampleLoop].
  unfold buddhabrotPoints, reserve.
  destruct (nIterations <? 0) eqn:E; [reflexivity|lia].
Qed.

End Unvalidated.

(** C6, as the code has it. [GenerateHeatmap] checks nothing.
    - A window that is not ordered on an axis breaks the precondition of
      [uniform_real_distribution]: the call has no defined behaviour.
    - For a window ordered on both axes, zero span included: a non-positive
      sample count draws no sample and leaves grid and maximum as they
      were; the bound zero draws every sample and leaves grid and maximum
      as they were; a negative bound with a positive sample count ends the
      call by [std::length_error]; and every call that returns has drawn
      [max(nSamples, 0)] samples. *)
Theorem GenerateHeatmap_rejects_nothing
  (imageWidth imageHeight : Z) (minimum maximum : Complex)
  (nIterations : Z) (rng : nat -> Complex) (nSamples : Z)
  (acc : Accumulator) :
  let call := GenerateHeatmap imageWidth imageHeight minimum maximum
                nIterations rng nSamples acc in
  let ordered :=
    uniform_real_distribution (Complex.r minimum) (Complex.r maximum) = Ok tt
    /\ uniform_real_distribution (Complex.i minimum) (Complex.i maximum)
       = Ok tt in
  ((Complex.r minimum <=? Complex.r maximum)%float = false
   \/ (Complex.i minimum <=? Complex.i maximum)%float = false ->
   call = Undefined)
  /\ (ordered -> nSamples <= 0 -> call = Ok (acc, 0))
  /\ (ordered -> nIterations = 0 -> call = Ok (acc, Z.max nSamples 0))
  /\ (ordered -> nIterations < 0 -> 0 < nSamples ->
      call = Throw length_error)
  /\ (forall acc' n, call = Ok (acc', n) -> n = Z.max nSamples 0).
Proof.
  cbn zeta. unfold GenerateHeatmap. repeat split.
  - unfold uniform_real_distribution. intros [H|H].
    + rewrite H. reflexivity.
    + rewrite H.
      destruct ((Complex.r minimum <=? Complex.r maximum)
                && (Complex.r maximum - Complex.r minimum <=? DBL_MAX))%float;
        reflexivity.
  - intros [-> ->] Hn. cbn [mbind result_bind].
    replace (Z.to_nat nSamples) with 0%nat by lia. reflexivity.
  - intros [-> ->] ->. cbn [mbind result_bind].
    rewrite sampleLoop_zero_bound. f_equal. f_equal. lia.
  - intros [-> ->] Hi Hn. cbn [mbind result_bind].
    destruct (Z.to_nat nSamples) as [|k] eqn:E; [lia|].
    apply sampleLoop_negative_bound, Hi.
  - intros acc' n H.
    apply (GenerateHeatmap_points imageWidth imageHeight minimum maximum
             nIterations rng nSamples n acc acc').
    exact H.
Qed.

Lemma GenerateHeatmap_rejects_nothing_witness :
  let minimum := Complex.mk (-2) (-2) in
  let maximum := Complex.mk 1 2 in
  let rng := fun _ : nat => Complex.mk 0.5 0.75 in
  let acc := mkAcc (zeroHeatmap 4 4) 0 in
  GenerateHeatmap 4 4 maximum minimum 5 rng 3 acc = Undefined
  /\ GenerateHeatmap 4 4 minimum maximum 5 rng (-3) acc = Ok (acc, 0)
  /\ GenerateHeatmap 4 4 minimum maximum 0 rng 3 acc = Ok (acc, 3)
  /\ GenerateHeatmap 4 4 minimum maximum (-1) rng 3 acc = Throw length_error.
Proof.
  cbn zeta.
  split.
  { destruct (GenerateHeatmap_rejects_nothing 4 4
                (Complex.mk 1 2) (Complex.mk (-2) (-2)) 5
                (fun _ : nat => Complex.mk 0.5 0.75) 3
                (mkAcc (zeroHeatmap 4 4) 0)) as (H & _).
    apply H. left. vm_compute. reflexivity. }
  split.
  { destruct (GenerateHeatmap_rejects_nothing 4 4
                (Complex.mk (-2) (-2)) (Complex.mk 1 2) 5
                (fun _ : nat => Complex.mk 0.5 0.75) (-3)
                (mkAcc (zeroHeatmap 4 4) 0)) as (_ & H & _).
    apply H; [split; vm_compute; reflexivity | lia]. }
  split.
  { destruct (GenerateHeatmap_rejects_nothing 4 4
                (Complex.mk (-2) (-2)) (Complex.mk 1 2) 0
                (fun _ : nat => Complex.mk 0.5 0.75) 3
                (mkAcc (zeroHeatmap 4 4) 0)) as (_ & _ & H & _).
    apply H; [split; vm_compute; reflexivity | reflexivity]. }
  destruct (GenerateHeatmap_rejects_nothing 4 4
              (Complex.mk (-2) (-2)) (Complex.mk 1 2) (-1)
              (fun _ : nat => Complex.mk 0.5 0.75) 3
              (mkAcc (zeroHeatmap 4 4) 0)) as (_ & _ & _ & H & _).
  apply H; [split; vm_compute; reflexivity | lia | lia].
Defined.

(** C6, counterexample: with the iteration bound zero and three samples
    asked for, the call is not turned down: it returns after drawing the
    three samples.  With a window of zero span on the real axis the sample
    is drawn as well, its trajectory is built and its first point is handed
    to the coordinate mapper. *)
Lemma GenerateHeatmap_draws_for_zero_bound :
  let minimum := Complex.mk (-2) (-2) in
  let maximum := Complex.mk 1 2 in
  let acc := mkAcc (zeroHeatmap 4 4) 0 in
  GenerateHeatmap 4 4 minimum maximum 0 (fun _ => Complex.mk 0.5 0.75) 3 acc
  = Ok (acc, 3)
  /\ uniform_real_distribution 1 1 = Ok tt
  /\ buddhabrotPoints (Complex.mk 1 1) 5 = Ok [Complex.mk 1 1; Complex.mk 1 3]
  /\ inWindow (Complex.mk 1 (-2)) (Complex.mk 1 2) (Complex.mk 1 1) = true
  /\ rowFromReal 1 1 1 4 = Undefined
  /\ GenerateHeatmap 4 4 (Complex.mk 1 (-2)) (Complex.mk 1 2) 5
       (fun _ => Complex.mk 1 1) 1 acc = Undefined.
Proof. cbn zeta. repeat split; vm_compute; reflexivity. Qed.

(** ** Supplementary facts *)

(** The window test is not the only way out of the grid: the largest
    [double] below [maximum.i() = 2.0] and the largest below
    [maximum.r() = 1.0] are mapped to the index [7000] as well, because the
    products round to [7000.0]. *)
Lemma mapper_just_below_maximum :
  (0x1.fffffffffffffp+0 <? 2)%float = true
  /\ colFromImaginary 0x1.fffffffffffffp+0 (-2) 2 7000 = Ok 7000
  /\ (0x1.fffffffffffffp-1 <? 1)%float = true
  /\ rowFromReal 0x1.fffffffffffffp-1 (-2) 1 7000 = Ok 7000.
Proof. repeat split; vm_compute; reflexivity. Qed.

Section CellsBelowMaximum.

Variables imageWidth imageHeight : Z.
Variables minimum maximum : Complex.

Lemma countAt_cells (acc acc' : Accumulator) (row col : Z) :
  countAt acc row col = Ok acc' ->
  (forall r c v, getCell (o_heatmap acc) r c = Some v ->
                 0 <= v <= o_maxHeatmapValue acc) ->
  forall r c v, getCell (o_heatmap acc') r c = Some v ->
                0 <= v <= o_maxHeatmapValue acc'.
Proof.
  intros H Hinv r c v.
  destruct (readCell_cases (o_heatmap acc) row col) as [E|[v0 E]].
  - rewrite countAt_Undefined in H by assumption. discriminate.
  - rewrite (countAt_Ok _ _ _ _ E) in H. injection H as <-.
    cbn [o_heatmap o_maxHeatmapValue].
    apply readCell_Ok in E as (_ & _ & E).
    pose proof (HeatmapType_wrap_range (v0 + 1)) as Hw.
    destruct (decide ((Z.to_nat row, Z.to_nat col) = (r, c)))
      as [[= <- <-]|Hne].
    + rewrite getCell_setCell_eq by (rewrite E; eauto).
      intros [= <-]. lia.
    + rewrite getCell_setCell_ne by assumption.
      intros Hv. apply Hinv in Hv. lia.
Qed.

Lemma accumulateIn_cells (s s' : Channels) (ev : Channel * Complex) :
  accumulateIn imageWidth imageHeight minimum maximum s ev = Ok s' ->
  cellsBelowMaximum s -> cellsBelowMaximum s'.
Proof.
  intros H Hinv.
  pose proof (accumulateIn_maximum_mono _ _ _ _ _ _ _ H) as Hmono.
  unfold accumulateIn in H. inv_bind H. injection H as <-.
  destruct ev as [ch0 point]. cbn [fst snd] in *.
  assert (Hcur : forall r c v, getCell (o_heatmap a) r c = Some v ->
                               0 <= v <= o_maxHeatmapValue a).
  { rewrite accumulate_binOf in Ha.
    destruct (binOf _ _ _ _ point) as [[[row col]|]| |];
      cbn [mbind result_bind] in Ha; try discriminate.
    - apply (countAt_cells _ _ _ _ Ha). cbn [o_heatmap o_maxHeatmapValue].
      intros r c v. apply Hinv.
    - injection Ha as <-. cbn [o_heatmap o_maxHeatmapValue].
      intros r c v. apply Hinv. }
  intros ch r c v Hv.
  destruct ch0, ch; cbn [updateChannel channelHeatmap maxHeatmapValue
                         red green blue] in *;
    try (apply Hcur in Hv; exact Hv);
    match goal with
    | H : getCell (?f s) r c = Some v |- _ =>
        first [ apply (Hinv Red) in H | apply (Hinv Green) in H
              | apply (Hinv Blue) in H ]; lia
    end.
Qed.

Lemma cellsBelowMaximum_fresh (width height : Z) :
  cellsBelowMaximum (freshChannels width height).
Proof.
  intros ch r c v H.
  assert (Hz : getCell (zeroHeatmap width height) r c = Some v)
    by (destruct ch; exact H).
  rewrite getCell_zeroHeatmap in Hz.
  destruct (decide _); [|discriminate]. injection Hz as <-. cbn. lia.
Qed.

(** Along every run from a fresh state the shared maximum bounds every
    counter of every grid. *)
Lemma accumulateEvents_cells
  (evs : list (Channel * Complex)) (s s' : Channels) :
  accumulateEvents imageWidth imageHeight minimum maximum s evs = Ok s' ->
  cellsBelowMaximum s -> cellsBelowMaximum s'.
Proof.
  revert s; induction evs as [|ev evs IH]; intros s H Hinv.
  - injection H as <-. exact Hinv.
  - cbn [accumulateEvents] in H. inv_bind H.
    apply (IH a H). eapply accumulateIn_cells; eassumption.
Qed.

End CellsBelowMaximum.

(** When the sampling of [main] completes, every counter the normaliser
    receives is at most the maximum it divides by. *)
Lemma generateChannels_cells
  (MINIMUM MAXIMUM : Complex) (IMAGE_HEIGHT IMAGE_WIDTH : Z)
  (RED_ITERS BLUE_ITERS GREEN_ITERS SAMPLE_COUNT : Z)
  (rngRed rngGreen rngBlue : nat -> Complex) (s : Channels) :
  generateChannels MINIMUM MAXIMUM IMAGE_HEIGHT IMAGE_WIDTH
    RED_ITERS BLUE_ITERS GREEN_ITERS SAMPLE_COUNT rngRed rngGreen rngBlue
  = Ok s ->
  cellsBelowMaximum s.
Proof.
  intros H. apply generateChannels_events in H.
  eapply accumulateEvents_cells; [exact H|].
  apply cellsBelowMaximum_fresh.
Qed.

(** * Further properties of the code *)

(** ** elapsedTime *)

Lemma append_assoc (s1 s2 s3 : string) :
  (s1 +:+ s2) +:+ s3 = s1 +:+ (s2 +:+ s3).
Proof.
  induction s1 as [|a s1 IH]; [reflexivity|].
  change (String a ((s1 +:+ s2) +:+ s3) = String a (s1 +:+ (s2 +:+ s3))).
  f_equal. exact IH.
Qed.

Lemma append_empty_r (s : string) : s +:+ "" = s.
Proof.
  induction s as [|a s IH]; [reflexivity|].
  change (String a (s +:+ "") = String a s). f_equal. exact IH.
Qed.

Lemma elapsedTime_components_aux (elapsed : Z) :
  0 <= elapsed ->
  0 <= elapsed_hrs elapsed
  /\ 0 <= elapsed_mins elapsed < 60
  /\ 0 <= elapsed_secs elapsed < 60
  /\ 0 <= elapsed_mils elapsed < 1000
  /\ 0 <= elapsed
          - (elapsed_hrs elapsed * NANOS_PER_HOUR
             + elapsed_mins elapsed * NANOS_PER_MINUTE
             + elapsed_secs elapsed * NANOS_PER_SECOND
             + elapsed_mils elapsed * NANOS_PER_MILLISECOND)
       < NANOS_PER_MILLISECOND.
Proof.
  intros H.
  unfold elapsed_mils, elapsed_secs, elapsed_mins, elapsed_hrs.
  unfold NANOS_PER_HOUR, NANOS_PER_MINUTE, NANOS_PER_SECOND,
    NANOS_PER_MILLISECOND.
  rewrite (Z.quot_div_nonneg elapsed) by lia.
  pose proof (Z.div_mod elapsed 3600000000000 ltac:(lia)) as Hh.
  pose proof (Z.mod_pos_bound elapsed 3600000000000 ltac:(lia)) as Hhb.
  assert (Hq : 0 <= elapsed / 3600000000000) by (apply Z.div_pos; lia).
  set (h := elapsed / 3600000000000) in *.
  set (r1 := elapsed - h * 3600000000000).
  assert (Hr1 : 0 <= r1 < 3600000000000) by (subst r1; lia).
  rewrite (Z.quot_div_nonneg r1) by lia.
  pose proof (Z.div_mod r1 60000000000 ltac:(lia)) as Hm.
  pose proof (Z.mod_pos_bound r1 60000000000 ltac:(lia)) as Hmb.
  assert (Hmq : 0 <= r1 / 60000000000 < 60).
  { split; [apply Z.div_pos; lia|apply Z.div_lt_upper_bound; lia]. }
  set (m := r1 / 60000000000) in *.
  set (r2 := r1 - m * 60000000000).
  assert (Hr2 : 0 <= r2 < 60000000000) by (subst r2; lia).
  rewrite (Z.quot_div_nonneg r2) by lia.
  pose proof (Z.div_mod r2 1000000000 ltac:(lia)) as Hs.
  pose proof (Z.mod_pos_bound r2 1000000000 ltac:(lia)) as Hsb.
  assert (Hsq : 0 <= r2 / 1000000000 < 60).
  { split; [apply Z.div_pos; lia|apply Z.div_lt_upper_bound; lia]. }
  set (sec := r2 / 1000000000) in *.
  set (r3 := r2 - sec * 1000000000).
  assert (Hr3 : 0 <= r3 < 1000000000) by (subst r3; lia).
  rewrite (Z.quot_div_nonneg r3) by lia.
  pose proof (Z.div_mod r3 1000000 ltac:(lia)) as Hl.
  pose proof (Z.mod_pos_bound r3 1000000 ltac:(lia)) as Hlb.
  assert (Hlq : 0 <= r3 / 1000000 < 1000).
  { split; [apply Z.div_pos; lia|apply Z.div_lt_upper_bound; lia]. }
  lia.
Qed.

(** The four components of a non-negative duration: minutes and seconds
    below 60, milliseconds below 1000, and together they account for the
    duration up to the part below one millisecond, which is dropped. *)
Theorem elapsedTime_components (elapsed : Z) :
  0 <= elapsed ->
  0 <= elapsed_hrs elapsed
  /\ 0 <= elapsed_mins elapsed < 60
  /\ 0 <= elapsed_secs elapsed < 60
  /\ 0 <= elapsed_mils elapsed < 1000
  /\ 0 <= elapsed
          - (elapsed_hrs elapsed * NANOS_PER_HOUR
             + elapsed_mins elapsed * NANOS_PER_MINUTE
             + elapsed_secs elapsed * NANOS_PER_SECOND
             + elapsed_mils elapsed * NANOS_PER_MILLISECOND)
       < NANOS_PER_MILLISECOND.
Proof. apply elapsedTime_components_aux. Qed.

Lemma elapsedTime_components_witness :
  0 <= 93784005000123
  /\ elapsed_hrs 93784005000123 = 26
  /\ 0 <= elapsed_mins 93784005000123 < 60.
Proof.
  split; [lia|]. split; [reflexivity|].
  apply (elapsedTime_components 93784005000123). lia.
Defined.

Lemma quot_nonpos (x d : Z) :
  x <= 0 -> 0 < d -> x ÷ d <= 0 /\ x - x ÷ d * d <= 0.
Proof.
  intros Hx Hd.
  pose proof (Z.quot_rem' x d) as Hqr.
  pose proof (Z.rem_nonpos x d ltac:(lia) Hx) as Hr.
  assert (Hq : x ÷ d <= 0).
  { replace x with (- (- x)) by lia. rewrite Z.quot_opp_l by lia.
    pose proof (Z.quot_pos (- x) d ltac:(lia) Hd). lia. }
  split; [exact Hq|]. lia.
Qed.

(** A duration below one millisecond, negative ones included, is printed
    as the empty string. *)
Theorem elapsedTime_below_millisecond (elapsed : Z) :
  elapsed < NANOS_PER_MILLISECOND ->
  elapsedTime elapsed = "".
Proof.
  intros H.
  assert (Hall : elapsed_hrs elapsed <= 0 /\ elapsed_mins elapsed <= 0
                 /\ elapsed_secs elapsed <= 0 /\ elapsed_mils elapsed <= 0).
  { unfold elapsed_mils, elapsed_secs, elapsed_mins, elapsed_hrs.
    unfold NANOS_PER_HOUR, NANOS_PER_MINUTE, NANOS_PER_SECOND,
      NANOS_PER_MILLISECOND in *.
    destruct (Z.le_gt_cases 0 elapsed) as [Hpos|Hneg].
    - rewrite (Z.quot_small elapsed 3600000000000) by lia.
      rewrite Z.mul_0_l, Z.sub_0_r.
      rewrite (Z.quot_small elapsed 60000000000) by lia.
      rewrite Z.mul_0_l, Z.sub_0_r.
      rewrite (Z.quot_small elapsed 1000000000) by lia.
      rewrite Z.mul_0_l, Z.sub_0_r.
      rewrite (Z.quot_small elapsed 1000000) by lia. lia.
    - destruct (quot_nonpos elapsed 3600000000000) as [H1 R1]; [lia|lia|].
      destruct (quot_nonpos _ 60000000000 R1) as [H2 R2]; [lia|].
      destruct (quot_nonpos _ 1000000000 R2) as [H3 R3]; [lia|].
      destruct (quot_nonpos _ 1000000 R3) as [H4 _]; [lia|].
      auto. }
  destruct Hall as (Hh & Hm & Hs & Hl).
  unfold elapsedTime. cbn zeta.
  replace (24 <? elapsed_hrs elapsed) with false by lia.
  replace (0 <? elapsed_hrs elapsed) with false by lia.
  replace (0 <? elapsed_mins elapsed) with false by lia.
  replace (0 <? elapsed_secs elapsed) with false by lia.
  replace (0 <? elapsed_mils elapsed) with false by lia.
  reflexivity.
Qed.

Lemma elapsedTime_below_millisecond_witness :
  elapsedTime 999999 = "" /\ elapsedTime (-5000000000) = "".
Proof.
  split.
  - apply (elapsedTime_below_millisecond 999999). reflexivity.
  - apply (elapsedTime_below_millisecond (-5000000000)). reflexivity.
Defined.

(** Days are printed only from 25 hours on: a duration of one hour up to,
    but not including, 25 hours starts with its hours, so 24 hours are
    "24 Hours"; from 25 hours on the text starts with the days and the
    hours left, "0 Hours" included. *)
Theorem elapsedTime_days_from_25_hours (elapsed : Z) :
  NANOS_PER_HOUR <= elapsed ->
  exists rest : string,
    elapsedTime elapsed
    = (if elapsed <? 25 * NANOS_PER_HOUR
       then decimal (elapsed / NANOS_PER_HOUR) +:+ " Hours, "
       else decimal (elapsed / NANOS_PER_HOUR / 24) +:+ " Days, "
            +:+ decimal (elapsed / NANOS_PER_HOUR mod 24) +:+ " Hours, ")
      +:+ rest.
Proof.
  intros H. unfold elapsedTime. cbn zeta.
  eexists. f_equal.
  unfold elapsed_hrs, NANOS_PER_HOUR in *.
  rewrite Z.quot_div_nonneg by lia.
  assert (Hh : 1 <= elapsed / 3600000000000)
    by (apply Z.div_le_lower_bound; lia).
  destruct (elapsed <? 25 * 3600000000000) eqn:E.
  - assert (elapsed / 3600000000000 < 25)
      by (apply Z.div_lt_upper_bound; lia).
    replace (24 <? elapsed / 3600000000000) with false by lia.
    replace (0 <? elapsed / 3600000000000) with true by lia.
    reflexivity.
  - assert (25 <= elapsed / 3600000000000)
      by (apply Z.div_le_lower_bound; lia).
    replace (24 <? elapsed / 3600000000000) with true by lia.
    rewrite Z.quot_div_nonneg, Z.rem_mod_nonneg by lia.
    reflexivity.
Qed.

Lemma elapsedTime_days_from_25_hours_witness :
  elapsedTime (24 * NANOS_PER_HOUR) = "24 Hours, "
  /\ elapsedTime (48 * NANOS_PER_HOUR) = "2 Days, 0 Hours, "
  /\ exists rest : string,
       elapsedTime (24 * NANOS_PER_HOUR) = "24 Hours, " +:+ rest.
Proof.
  split; [reflexivity|]. split; [reflexivity|].
  apply (elapsedTime_days_from_25_hours (24 * NANOS_PER_HOUR)).
  vm_compute. discriminate.
Defined.

(** A duration of at least one millisecond with no milliseconds part ends
    with the separator [", "]: nothing follows the last unit printed. *)
Theorem elapsedTime_trailing_separator (elapsed : Z) :
  NANOS_PER_MILLISECOND <= elapsed ->
  elapsed_mils elapsed = 0 ->
  exists text : string, elapsedTime elapsed = text +:+ ", ".
Proof.
  intros H Hl.
  destruct (elapsedTime_components_aux elapsed) as (Hh & Hm & Hs & _ & Hsum).
  { unfold NANOS_PER_MILLISECOND in H. lia. }
  rewrite Hl in Hsum.
  unfold elapsedTime. cbn zeta. rewrite Hl.
  replace (0 <? 0) with false by reflexivity.
  unfold NANOS_PER_HOUR, NANOS_PER_MINUTE, NANOS_PER_SECOND,
    NANOS_PER_MILLISECOND in *.
  destruct (0 <? elapsed_secs elapsed) eqn:Es.
  - set (A := if 24 <? elapsed_hrs elapsed then _ else _).
    set (B := if 0 <? elapsed_mins elapsed then _ else _).
    exists (A +:+ B +:+ decimal (elapsed_secs elapsed) +:+ " Seconds").
    rewrite append_empty_r, !append_assoc. reflexivity.
  - rewrite !append_empty_r.
    destruct (0 <? elapsed_mins elapsed) eqn:Em.
    + set (A := if 24 <? elapsed_hrs elapsed then _ else _).
      exists (A +:+ decimal (elapsed_mins elapsed) +:+ " Minutes").
      rewrite !append_assoc. reflexivity.
    + rewrite append_empty_r.
      destruct (24 <? elapsed_hrs elapsed) eqn:Ed.
      * exists (decimal (elapsed_hrs elapsed ÷ 24) +:+ " Days, "
                +:+ decimal (Z.rem (elapsed_hrs elapsed) 24) +:+ " Hours").
        rewrite !append_assoc. reflexivity.
      * replace (0 <? elapsed_hrs elapsed) with true by lia.
        exists (decimal (elapsed_hrs elapsed) +:+ " Hours").
        rewrite !append_assoc. reflexivity.
Qed.

Lemma elapsedTime_trailing_separator_witness :
  elapsedTime 61000000000 = "1 Minutes, 1 Seconds, "
  /\ exists text : string, elapsedTime 61000000000 = text +:+ ", ".
Proof.
  split; [reflexivity|].
  apply (elapsedTime_trailing_separator 61000000000).
  - vm_compute. discriminate.
  - reflexivity.
Defined.

(** ** buddhabrotPoints *)

(** A returned trajectory is the orbit of the candidate up to its first
    unbounded iterate: every point but the last has squared magnitude at
    most [2.0], and the last one has not. *)
Theorem buddhabrotPoints_last_escapes
  (c : Complex) (nIterations : Z) (l : list Complex) (z : Complex) :
  buddhabrotPoints c nIterations = Ok (l ++ [z]) ->
  l = map (orbit c) (seq 1 (length l))
  /\ z = orbit c (S (length l))
  /\ Forall (fun p => bounded p = true) l
  /\ bounded z = false.
Proof.
  intros H.
  assert (HN : 0 <= nIterations).
  { unfold buddhabrotPoints, reserve in H.
    destruct (nIterations <? 0) eqn:E; [discriminate|lia]. }
  destruct (buddhabrotPoints_orbit c nIterations HN)
    as (n' & Hle & Hb & He & _ & Hres).
  rewrite Hres in H.
  destruct (Z.of_nat n' =? nIterations) eqn:E.
  { injection H as H. destruct l; discriminate. }
  injection H as H.
  assert (Hn : n' = S (length l)).
  { apply (f_equal (@length Complex)) in H.
    rewrite length_map, length_seq, length_app in H. cbn in H. lia. }
  subst n'. rewrite seq_S, map_app in H. cbn [map] in H.
  apply app_inj_tail in H as [Hl Hz].
  split; [symmetry; exact Hl|]. split; [symmetry; exact Hz|].
  split.
  - rewrite <- Hl. apply List.Forall_forall. intros p Hp.
    apply in_map_iff in Hp as (j & <- & Hj). apply in_seq in Hj.
    apply Hb. lia.
  - rewrite <- Hz. apply He. apply Z.eqb_neq in E. lia.
Qed.

Lemma buddhabrotPoints_last_escapes_witness :
  buddhabrotPoints (Complex.mk 0.5 1) 5
  = Ok ([Complex.mk 0.5 1] ++ [Complex.mk (-0.25) 2])
  /\ bounded (Complex.mk (-0.25) 2) = false.
Proof.
  split; [vm_compute; reflexivity|].
  apply (buddhabrotPoints_last_escapes (Complex.mk 0.5 1) 5
           [Complex.mk 0.5 1] (Complex.mk (-0.25) 2)).
  vm_compute. reflexivity.
Defined.

(** A trajectory that is returned does not depend on the bound: every
    larger bound gives the same points. *)
Theorem buddhabrotPoints_bound_independent
  (c : Complex) (nIterations nIterations' : Z) (l : list Complex) :
  buddhabrotPoints c nIterations = Ok l ->
  l <> [] ->
  nIterations <= nIterations' ->
  buddhabrotPoints c nIterations' = Ok l.
Proof.
  intros H Hne Hle.
  assert (HN : 0 <= nIterations).
  { unfold buddhabrotPoints, reserve in H.
    destruct (nIterations <? 0) eqn:E; [discriminate|lia]. }
  destruct (buddhabrotPoints_orbit c nIterations HN)
    as (n' & Hn' & Hb & He & _ & Hres).
  rewrite Hres in H.
  destruct (Z.of_nat n' =? nIterations) eqn:E.
  { injection H as <-. contradiction. }
  injection H as <-. apply Z.eqb_neq in E.
  apply buddhabrotPoints_escape; [lia|exact Hb|apply He; lia].
Qed.

Lemma buddhabrotPoints_bound_independent_witness :
  buddhabrotPoints (Complex.mk 0.5 1) 5
  = Ok [Complex.mk 0.5 1; Complex.mk (-0.25) 2]
  /\ buddhabrotPoints (Complex.mk 0.5 1) 500000
     = Ok [Complex.mk 0.5 1; Complex.mk (-0.25) 2].
Proof.
  split; [vm_compute; reflexivity|].
  apply (buddhabrotPoints_bound_independent (Complex.mk 0.5 1) 5 500000).
  - vm_compute. reflexivity.
  - discriminate.
  - lia.
Defined.

(** For a bound [N >= 0] the result is empty exactly when the iterates
    [z_0 .. z_(N-1)] all have squared magnitude at most [2.0]; the iterate
    [z_N] plays no part. *)
Theorem buddhabrotPoints_empty_iff (c : Complex) (nIterations : Z) :
  0 <= nIterations ->
  (buddhabrotPoints c nIterations = Ok []
   <-> forall j, (j < Z.to_nat nIterations)%nat -> bounded (orbit c j) = true).
Proof.
  intros HN. split.
  - intros H.
    destruct (buddhabrotPoints_orbit c nIterations HN)
      as (n' & Hn' & Hb & He & _ & Hres).
    rewrite Hres in H.
    destruct (Z.of_nat n' =? nIterations) eqn:E.
    + intros j Hj. apply Hb. lia.
    + injection H as H. destruct n' as [|n']; [|discriminate].
      apply Z.eqb_neq in E.
      assert (Hlt : (0 < Z.to_nat nIterations)%nat) by lia.
      specialize (He Hlt). cbn [orbit] in He.
      rewrite bounded_default in He. discriminate.
  - apply buddhabrotPoints_bounded, HN.
Qed.

Lemma buddhabrotPoints_empty_iff_witness :
  buddhabrotPoints (Complex.mk (-1) 0.5) 5 = Ok []
  /\ forall j, (j < Z.to_nat 5)%nat ->
               bounded (orbit (Complex.mk (-1) 0.5) j) = true.
Proof.
  split; [vm_compute; reflexivity|].
  apply (buddhabrotPoints_empty_iff (Complex.mk (-1) 0.5) 5); [lia|].
  vm_compute. reflexivity.
Defined.

(** ** AllocHeatmap *)

(** [AllocHeatmap] either raises [std::bad_array_new_length], which it does
    exactly for a negative height or a negative width with at least one
    row, or yields a grid whose cells [0 <= row < height],
    [0 <= col < width] all read zero and outside of which no read is
    defined. *)
Theorem AllocHeatmap_cells (width height : Z) :
  match AllocHeatmap width height with
  | Ok heatmap =>
      ~ (height < 0 \/ (0 < height /\ width < 0))
      /\ forall row col : Z,
           readCell heatmap row col
           = if (0 <=? row) && (row <? height) && (0 <=? col) && (col <? width)
             then Ok 0 else Undefined
  | Throw e => e = bad_array_new_length
               /\ (height < 0 \/ (0 < height /\ width < 0))
  | Undefined => False
  end.
Proof.
  unfold AllocHeatmap.
  destruct (height <? 0) eqn:Eh; [split; [reflexivity|lia]|].
  destruct ((0 <? height) && (width <? 0)) eqn:Ew; [split; [reflexivity|lia]|].
  split; [lia|]. intros row col. unfold readCell.
  destruct (0 <=? row) eqn:Er; cbn [andb orb];
    [replace (row <? 0) with false by lia
    |replace (row <? 0) with true by lia; reflexivity].
  destruct (0 <=? col) eqn:Ec;
    [replace (col <? 0) with false by lia
    |replace (col <? 0) with true by lia; cbn [orb];
     destruct (row <? height); reflexivity].
  cbn [orb]. rewrite getCell_zeroHeatmap.
  destruct (row <? height) eqn:Erh, (col <? width) eqn:Ecw; cbn [andb];
    destruct (decide _) as [Hd|Hd]; try reflexivity; exfalso; lia.
Qed.

(** ** The shape of the grids *)

Lemma shape_setCell (heatmap : Heatmap) (row col : nat) (v : Z) :
  shape (setCell heatmap row col v) = shape heatmap.
Proof.
  unfold shape, setCell. revert row.
  induction heatmap as [|line heatmap IH]; intros [|row]; cbn;
    [reflexivity|reflexivity| |].
  - rewrite length_insert. reflexivity.
  - f_equal. apply IH.
Qed.

Lemma shape_zeroHeatmap (width height : Z) :
  shape (zeroHeatmap width height)
  = replicate (Z.to_nat height) (Z.to_nat width).
Proof.
  unfold shape, zeroHeatmap.
  induction (Z.to_nat height) as [|n IH]; cbn; [reflexivity|].
  rewrite length_replicate. f_equal. exact IH.
Qed.

Section Shape.

Variables imageWidth imageHeight : Z.
Variables minimum maximum : Complex.

Lemma accumulate_shape (acc acc' : Accumulator) (point : Complex) :
  accumulate imageWidth imageHeight minimum maximum acc point = Ok acc' ->
  shape (o_heatmap acc') = shape (o_heatmap acc).
Proof.
  rewrite accumulate_binOf.
  destruct (binOf _ _ _ _ point) as [[[row col]|]| |];
    cbn [mbind result_bind]; try discriminate.
  - destruct (readCell_cases (o_heatmap acc) row col) as [H|[v H]].
    + rewrite countAt_Undefined by assumption. discriminate.
    + rewrite (countAt_Ok _ _ _ _ H). intros [= <-].
      apply shape_setCell.
  - intros [= <-]. reflexivity.
Qed.

Lemma accumulatePoints_shape (l : list Complex) (acc acc' : Accumulator) :
  accumulatePoints imageWidth imageHeight minimum maximum acc l = Ok acc' ->
  shape (o_heatmap acc') = shape (o_heatmap acc).
Proof.
  revert acc; induction l as [|p l IH]; intros acc H.
  - injection H as <-. reflexivity.
  - cbn [accumulatePoints] in H. inv_bind H.
    rewrite (IH _ H). eapply accumulate_shape, Ha.
Qed.

End Shape.

(** A call of [GenerateHeatmap] that returns leaves the grid with the rows
    and the row lengths it was given. *)
Theorem GenerateHeatmap_shape
  (imageWidth imageHeight : Z) (minimum maximum : Complex)
  (nIterations : Z) (rng : nat -> Complex) (nSamples n : Z)
  (acc acc' : Accumulator) :
  GenerateHeatmap imageWidth imageHeight minimum maximum nIterations rng
    nSamples acc = Ok (acc', n) ->
  shape (o_heatmap acc') = shape (o_heatmap acc).
Proof.
  intros H. apply GenerateHeatmap_points in H as [H _].
  eapply accumulatePoints_shape, H.
Qed.

Lemma GenerateHeatmap_shape_witness :
  let minimum := Complex.mk (-2) (-2) in
  let maximum := Complex.mk 1 2 in
  let acc' := mkAcc [[0; 0; 0; 0]; [0; 0; 0; 0]; [0; 0; 0; 2]; [0; 0; 2; 0]]
                2 in
  GenerateHeatmap 4 4 minimum maximum 5 (fun _ => Complex.mk 0.5 0.75) 2
    (mkAcc (zeroHeatmap 4 4) 0) = Ok (acc', 2)
  /\ shape (o_heatmap acc') = shape (zeroHeatmap 4 4).
Proof.
  cbn zeta. split; [vm_compute; reflexivity|].
  apply (GenerateHeatmap_shape 4 4 (Complex.mk (-2) (-2)) (Complex.mk 1 2)
           5 (fun _ => Complex.mk 0.5 0.75) 2 2 (mkAcc (zeroHeatmap 4 4) 0)).
  vm_compute. reflexivity.
Defined.

Lemma scaleLine_values (maxHeatmapValue maxColor : Z) (line line' : list Z) :
  scaleLine maxHeatmapValue maxColor line = Ok line' ->
  length line' = length line
  /\ Forall (fun v => 0 <= v < UINT_MODULUS) line'.
Proof.
  revert line'; induction line as [|v line IH]; intros line' H.
  - injection H as <-. split; [reflexivity|constructor].
  - cbn [scaleLine] in H. inv_bind H. inv_bind H. injection H as <-.
    destruct (IH _ Ha0) as [Hlen Hall].
    split; [cbn; f_equal; exact Hlen|].
    constructor; [apply HeatmapType_wrap_range|exact Hall].
Qed.

Lemma scaleHeatmap_values (maxHeatmapValue maxColor : Z)
  (heatmap heatmap' : Heatmap) :
  scaleHeatmap maxHeatmapValue maxColor heatmap = Ok heatmap' ->
  shape heatmap' = shape heatmap
  /\ Forall (Forall (fun v => 0 <= v < UINT_MODULUS)) heatmap'.
Proof.
  revert heatmap'; induction heatmap as [|line heatmap IH];
    intros heatmap' H.
  - injection H as <-. split; [reflexivity|constructor].
  - cbn [scaleHeatmap] in H. inv_bind H. inv_bind H. injection H as <-.
    destruct (IH _ Ha0) as [Hshape Hall].
    destruct (scaleLine_values _ _ _ _ Ha) as [Hlen Hline].
    split; [unfold shape in *; cbn; f_equal; assumption|].
    constructor; assumption.
Qed.

(** When the sampling and the scaling of [main] complete, the three grids
    it writes to [out.ppm] have [IMAGE_HEIGHT] rows of [IMAGE_WIDTH] values
    each, every value an [unsigned int]. *)
Theorem scaleChannels_image_shape
  (MINIMUM MAXIMUM : Complex) (IMAGE_HEIGHT IMAGE_WIDTH : Z)
  (RED_ITERS BLUE_ITERS GREEN_ITERS SAMPLE_COUNT : Z)
  (rngRed rngGreen rngBlue : nat -> Complex)
  (ch : Channels) (r g b : Heatmap) :
  generateChannels MINIMUM MAXIMUM IMAGE_HEIGHT IMAGE_WIDTH
    RED_ITERS BLUE_ITERS GREEN_ITERS SAMPLE_COUNT
    rngRed rngGreen rngBlue = Ok ch ->
  scaleChannels ch = Ok (r, g, b) ->
  let rows := replicate (Z.to_nat IMAGE_HEIGHT) (Z.to_nat IMAGE_WIDTH) in
  let values := Forall (Forall (fun v => 0 <= v < UINT_MODULUS)) in
  shape r = rows /\ shape g = rows /\ shape b = rows
  /\ values r /\ values g /\ values b.
Proof.
  intros Hgen Hscale.
  unfold scaleChannels in Hscale.
  apply bind_Ok in Hscale as (r' & Hr' & Hscale).
  apply bind_Ok in Hscale as (g' & Hg' & Hscale).
  apply bind_Ok in Hscale as (b' & Hb' & Hscale).
  injection Hscale as -> -> ->.
  apply scaleHeatmap_values in Hr' as [Sr Vr].
  apply scaleHeatmap_values in Hg' as [Sg Vg].
  apply scaleHeatmap_values in Hb' as [Sb Vb].
  assert (Hch : shape (red ch) = shape (zeroHeatmap IMAGE_WIDTH IMAGE_HEIGHT)
                /\ shape (green ch)
                   = shape (zeroHeatmap IMAGE_WIDTH IMAGE_HEIGHT)
                /\ shape (blue ch)
                   = shape (zeroHeatmap IMAGE_WIDTH IMAGE_HEIGHT)).
  { unfold generateChannels, AllocHeatmap in Hgen.
    destruct (IMAGE_HEIGHT <? 0); [discriminate|].
    destruct ((0 <? IMAGE_HEIGHT) && (IMAGE_WIDTH <? 0)); [discriminate|].
    cbn [mbind result_bind] in Hgen.
    apply bind_Ok in Hgen as ([accR nR] & HR & Hgen).
    apply bind_Ok in Hgen as ([accG nG] & HG & Hgen).
    apply bind_Ok in Hgen as ([accB nB] & HB & Hgen).
    injection Hgen as <-. cbn [fst red green blue] in *.
    apply GenerateHeatmap_points in HR as [HR _].
    apply GenerateHeatmap_points in HG as [HG _].
    apply GenerateHeatmap_points in HB as [HB _].
    apply accumulatePoints_shape in HR, HG, HB.
    cbn [o_heatmap] in *. auto. }
  destruct Hch as (Hr & Hg & Hb).
  cbn zeta. rewrite <- shape_zeroHeatmap.
  repeat split; try assumption; congruence.
Qed.

Lemma scaleChannels_image_shape_witness :
  let MINIMUM := Complex.mk (-2) (-2) in
  let MAXIMUM := Complex.mk 1 2 in
  let rngRed := fun _ : nat => Complex.mk 0.5 0.75 in
  let rngOther := fun _ : nat => Complex.mk (-1) 0 in
  let ch := mkChannels
              [[0; 0; 0; 0]; [0; 0; 0; 0]; [0; 0; 0; 2]; [0; 0; 2; 0]]
              (zeroHeatmap 4 4) (zeroHeatmap 4 4) 2 in
  let r := [[0; 0; 0; 0]; [0; 0; 0; 0]; [0; 0; 0; 255]; [0; 0; 255; 0]] in
  generateChannels MINIMUM MAXIMUM 4 4 5 50 50 2 rngRed rngOther rngOther
  = Ok ch
  /\ scaleChannels ch = Ok (r, zeroHeatmap 4 4, zeroHeatmap 4 4)
  /\ shape r = [4; 4; 4; 4]%nat.
Proof.
  cbn zeta. split; [vm_compute; reflexivity|].
  split; [vm_compute; reflexivity|].
  apply (scaleChannels_image_shape (Complex.mk (-2) (-2)) (Complex.mk 1 2)
           4 4 5 50 50 2 (fun _ : nat => Complex.mk 0.5 0.75)
           (fun _ : nat => Complex.mk (-1) 0)
           (fun _ : nat => Complex.mk (-1) 0)
           (mkChannels
              [[0; 0; 0; 0]; [0; 0; 0; 0]; [0; 0; 0; 2]; [0; 0; 2; 0]]
              (zeroHeatmap 4 4) (zeroHeatmap 4 4) 2)
           [[0; 0; 0; 0]; [0; 0; 0; 0]; [0; 0; 0; 255]; [0; 0; 255; 0]]
           (zeroHeatmap 4 4) (zeroHeatmap 4 4)).
  - vm_compute. reflexivity.
  - vm_compute. reflexivity.
Defined.

(** ** What one point does to the accumulator *)

(** A point that is accepted changes exactly one counter: the cell it is
    mapped to goes from [v] to [v + 1] modulo [2^32], every other cell
    reads as before, and the maximum becomes the larger of itself and the
    new value.  A point that is not accepted changes nothing. *)
Theorem accumulate_single_cell
  (imageWidth imageHeight : Z) (minimum maximum : Complex)
  (acc acc' : Accumulator) (point : Complex) :
  accumulate imageWidth imageHeight minimum maximum acc point = Ok acc' ->
  (inWindow minimum maximum point = false /\ acc' = acc)
  \/ (inWindow minimum maximum point = true
      /\ exists row col v : Z,
           rowFromReal (Complex.r point) (Complex.r minimum)
             (Complex.r maximum) imageHeight = Ok row
           /\ colFromImaginary (Complex.i point) (Complex.i minimum)
                (Complex.i maximum) imageWidth = Ok col
           /\ readCell (o_heatmap acc) row col = Ok v
           /\ readCell (o_heatmap acc') row col
              = Ok (HeatmapType_wrap (v + 1))
           /\ (forall row' col' : Z,
                 (row', col') <> (row, col) ->
                 readCell (o_heatmap acc') row' col'
                 = readCell (o_heatmap acc) row' col')
           /\ o_maxHeatmapValue acc'
              = Z.max (o_maxHeatmapValue acc) (HeatmapType_wrap (v + 1))).
Proof.
  unfold accumulate.
  destruct (inWindow minimum maximum point);
    [|intros [= <-]; left; split; reflexivity].
  intros H. right. split; [reflexivity|].
  apply bind_Ok in H as (row & Hrow & H).
  apply bind_Ok in H as (col & Hcol & H).
  fold (countAt acc row col) in H.
  destruct (readCell_cases (o_heatmap acc) row col) as [E|[v E]].
  { rewrite countAt_Undefined in H by assumption. discriminate. }
  rewrite (countAt_Ok _ _ _ _ E) in H. injection H as <-.
  exists row, col, v. cbn [o_heatmap o_maxHeatmapValue].
  split; [exact Hrow|]. split; [exact Hcol|]. split; [exact E|].
  split; [apply (readCell_setCell_eq _ _ _ v), E|].
  split; [|reflexivity].
  intros row' col' Hne. apply readCell_Ok in E as (Hr & Hc & _).
  apply readCell_setCell_ne; [assumption..|congruence].
Qed.

Lemma accumulate_single_cell_witness :
  let minimum := Complex.mk (-2) (-2) in
  let maximum := Complex.mk 1 2 in
  accumulate 4 4 minimum maximum (mkAcc (zeroHeatmap 4 4) 0)
    (Complex.mk 0.5 0.75)
  = Ok (mkAcc [[0; 0; 0; 0]; [0; 0; 0; 0]; [0; 0; 0; 0]; [0; 0; 1; 0]] 1)
  /\ (inWindow minimum maximum (Complex.mk 0.5 0.75) = true
      \/ inWindow minimum maximum (Complex.mk 0.5 0.75) = false).
Proof.
  cbn zeta. split; [vm_compute; reflexivity|].
  destruct (accumulate_single_cell 4 4 (Complex.mk (-2) (-2))
              (Complex.mk 1 2) (mkAcc (zeroHeatmap 4 4) 0)
              (mkAcc [[0; 0; 0; 0]; [0; 0; 0; 0]; [0; 0; 0; 0]; [0; 0; 1; 0]]
                 1)
              (Complex.mk 0.5 0.75)) as [[H _]|[H _]].
  - vm_compute. reflexivity.
  - right. exact H.
  - left. exact H.
Defined.

(** ** The shared maximum through a call *)

Lemma accumulatePoints_maximum_mono
  (imageWidth imageHeight : Z) (minimum maximum : Complex)
  (l : list Complex) (acc acc' : Accumulator) :
  accumulatePoints imageWidth imageHeight minimum maximum acc l = Ok acc' ->
  o_maxHeatmapValue acc <= o_maxHeatmapValue acc'.
Proof.
  revert acc; induction l as [|p l IH]; intros acc H.
  - injection H as <-. lia.
  - cbn [accumulatePoints] in H. apply bind_Ok in H as (a & Ha & H).
    apply accumulate_maximum_mono in Ha. apply IH in H. lia.
Qed.

(** A call of [GenerateHeatmap] never lowers the maximum it is given, so
    the value left by one channel is a lower bound for the next. *)
Theorem GenerateHeatmap_maximum_mono
  (imageWidth imageHeight : Z) (minimum maximum : Complex)
  (nIterations : Z) (rng : nat -> Complex) (nSamples n : Z)
  (acc acc' : Accumulator) :
  GenerateHeatmap imageWidth imageHeight minimum maximum nIterations rng
    nSamples acc = Ok (acc', n) ->
  o_maxHeatmapValue acc <= o_maxHeatmapValue acc'.
Proof.
  intros H. apply GenerateHeatmap_points in H as [H _].
  eapply accumulatePoints_maximum_mono, H.
Qed.

Lemma GenerateHeatmap_maximum_mono_witness :
  let minimum := Complex.mk (-2) (-2) in
  let maximum := Complex.mk 1 2 in
  GenerateHeatmap 4 4 minimum maximum 5 (fun _ => Complex.mk 0.5 0.75) 2
    (mkAcc (zeroHeatmap 4 4) 7)
  = Ok (mkAcc [[0; 0; 0; 0]; [0; 0; 0; 0]; [0; 0; 0; 2]; [0; 0; 2; 0]] 7, 2)
  /\ 7 <= 7.
Proof.
  cbn zeta. split; [vm_compute; reflexivity|].
  apply (GenerateHeatmap_maximum_mono 4 4 (Complex.mk (-2) (-2))
           (Complex.mk 1 2) 5 (fun _ => Complex.mk 0.5 0.75) 2 2
           (mkAcc (zeroHeatmap 4 4) 7)
           (mkAcc [[0; 0; 0; 0]; [0; 0; 0; 0]; [0; 0; 0; 2]; [0; 0; 2; 0]]
              7)).
  vm_compute. reflexivity.
Defined.

Lemma generateChannels_cells_witness :
  let MINIMUM := Complex.mk (-2) (-2) in
  let MAXIMUM := Complex.mk 1 2 in
  let rngRed := fun _ : nat => Complex.mk 0.5 0.75 in
  let rngOther := fun _ : nat => Complex.mk (-1) 0 in
  let s := mkChannels
             [[0; 0; 0; 0]; [0; 0; 0; 0]; [0; 0; 0; 2]; [0; 0; 2; 0]]
             (zeroHeatmap 4 4) (zeroHeatmap 4 4) 2 in
  generateChannels MINIMUM MAXIMUM 4 4 5 50 50 2 rngRed rngOther rngOther
  = Ok s
  /\ cellsBelowMaximum s.
Proof.
  cbn zeta. split; [vm_compute; reflexivity|].
  apply (generateChannels_cells (Complex.mk (-2) (-2)) (Complex.mk 1 2) 4 4
           5 50 50 2 (fun _ : nat => Complex.mk 0.5 0.75)
           (fun _ : nat => Complex.mk (-1) 0)
           (fun _ : nat => Complex.mk (-1) 0)).
  vm_compute. reflexivity.
Defined.

(** ** Counting conserves the points *)

Lemma lineTotal_insert (line : list Z) (col : nat) (v x : Z) :
  line !! col = Some v ->
  lineTotal (<[col := x]> line) = lineTotal line - v + x.
Proof.
  unfold lineTotal.
  revert col; induction line as [|y line IH]; intros [|col] H;
    try discriminate.
  - injection H as ->. cbn. lia.
  - change (<[S col := x]> (y :: line)) with (y :: <[col := x]> line).
    change ((y :: line) !! S col) with (line !! col) in H.
    cbn [fold_right]. rewrite (IH _ H). lia.
Qed.

Lemma heatmapTotal_setCell (heatmap : Heatmap) (row col : nat) (v x : Z) :
  getCell heatmap row col = Some v ->
  heatmapTotal (setCell heatmap row col x) = heatmapTotal heatmap - v + x.
Proof.
  unfold getCell, setCell, heatmapTotal. revert row.
  induction heatmap as [|line heatmap IH]; intros [|row] H;
    try discriminate.
  - change ((line :: heatmap) !! 0%nat ≫= fun l => l !! col)
      with (line !! col) in H.
    change (alter (fun l => <[col := x]> l) 0%nat (line :: heatmap))
      with (<[col := x]> line :: heatmap).
    cbn [fold_right]. rewrite (lineTotal_insert _ _ _ _ H). lia.
  - change ((line :: heatmap) !! S row ≫= fun l => l !! col)
      with (heatmap !! row ≫= fun l => l !! col) in H.
    change (alter (fun l => <[col := x]> l) (S row) (line :: heatmap))
      with (line :: alter (fun l => <[col := x]> l) row heatmap).
    cbn [fold_right]. rewrite (IH _ H). lia.
Qed.

Lemma lineTotal_bounds (line : list Z) (col : nat) (v : Z) :
  Forall (fun w => 0 <= w) line ->
  0 <= lineTotal line /\ (line !! col = Some v -> v <= lineTotal line).
Proof.
  intros Hall. revert col. unfold lineTotal.
  induction Hall as [|y line Hy _ IH]; intros col.
  - split; [cbn; lia|discriminate].
  - cbn. destruct (IH 0%nat) as [H0 _].
    split; [lia|]. destruct col as [|col]; cbn.
    + intros [= ->]. lia.
    + intros H. apply (IH col) in H. lia.
Qed.

Lemma heatmapTotal_bounds (heatmap : Heatmap) (row col : nat) (v : Z) :
  Forall (Forall (fun w => 0 <= w)) heatmap ->
  0 <= heatmapTotal heatmap
  /\ (getCell heatmap row col = Some v -> v <= heatmapTotal heatmap).
Proof.
  intros Hall. revert row. unfold getCell, heatmapTotal.
  induction Hall as [|line heatmap Hline _ IH]; intros row.
  - split; [cbn; lia|discriminate].
  - cbn. destruct (IH 0%nat) as [H0 _].
    destruct (lineTotal_bounds line col v Hline) as [Hl0 Hlv].
    split; [lia|]. destruct row as [|row]; cbn.
    + intros H. apply Hlv in H. lia.
    + intros H. apply (IH row) in H. lia.
Qed.

Lemma setCell_nonneg (heatmap : Heatmap) (row col : nat) (x : Z) :
  Forall (Forall (fun w => 0 <= w)) heatmap -> 0 <= x ->
  Forall (Forall (fun w => 0 <= w)) (setCell heatmap row col x).
Proof.
  intros Hall Hx. unfold setCell. apply Forall_alter; [exact Hall|].
  intros line _ Hline. apply Forall_insert; assumption.
Qed.

Lemma zeroHeatmap_total (width height : Z) :
  heatmapTotal (zeroHeatmap width height) = 0
  /\ Forall (Forall (fun w => 0 <= w)) (zeroHeatmap width height).
Proof.
  unfold zeroHeatmap, heatmapTotal.
  assert (Hline : lineTotal (replicate (Z.to_nat width) 0) = 0
                  /\ Forall (fun w => 0 <= w) (replicate (Z.to_nat width) 0)).
  { unfold lineTotal.
    induction (Z.to_nat width) as [|n [IH1 IH2]]; cbn;
      [split; [reflexivity|constructor]|].
    rewrite IH1. split; [reflexivity|constructor; [lia|exact IH2]]. }
  destruct Hline as [Hl Hf].
  induction (Z.to_nat height) as [|n [IH1 IH2]]; cbn;
    [split; [reflexivity|constructor]|].
  rewrite Hl, IH1. split; [reflexivity|constructor; assumption].
Qed.

Section Conservation.

Variables imageWidth imageHeight : Z.
Variables minimum maximum : Complex.

(** As long as fewer than [2^32] points are still to come on top of the
    counts already held, every accepted point adds one to the sum of the
    counters. *)
Lemma accumulatePoints_total (l : list Complex) (acc acc' : Accumulator) :
  accumulatePoints imageWidth imageHeight minimum maximum acc l = Ok acc' ->
  Forall (Forall (fun w => 0 <= w)) (o_heatmap acc) ->
  o_maxHeatmapValue acc <= heatmapTotal (o_heatmap acc) ->
  heatmapTotal (o_heatmap acc) + Z.of_nat (length l) < UINT_MODULUS ->
  heatmapTotal (o_heatmap acc')
  = heatmapTotal (o_heatmap acc)
    + Z.of_nat (length (pointsInWindow minimum maximum l))
  /\ o_maxHeatmapValue acc' <= heatmapTotal (o_heatmap acc').
Proof.
  revert acc; induction l as [|p l IH]; intros acc H Hall Hmax Hbound.
  - injection H as <-. cbn. split; lia.
  - cbn [accumulatePoints] in H. apply bind_Ok in H as (a & Ha & H).
    cbn [length] in Hbound. unfold pointsInWindow in *. cbn [List.filter].
    unfold accumulate in Ha.
    destruct (inWindow minimum maximum p).
    + apply bind_Ok in Ha as (row & _ & Ha).
      apply bind_Ok in Ha as (col & _ & Ha).
      fold (countAt acc row col) in Ha.
      destruct (readCell_cases (o_heatmap acc) row col) as [E|[v E]].
      { rewrite countAt_Undefined in Ha by assumption. discriminate. }
      rewrite (countAt_Ok _ _ _ _ E) in Ha. injection Ha as <-.
      apply readCell_Ok in E as (_ & _ & E).
      destruct (heatmapTotal_bounds (o_heatmap acc) (Z.to_nat row)
                  (Z.to_nat col) v Hall) as [Ht Hv].
      specialize (Hv E).
      assert (Hv0 : 0 <= v).
      { unfold getCell in E.
        destruct (o_heatmap acc !! Z.to_nat row) as [line|] eqn:El;
          [|discriminate]. cbn in E.
        eapply Forall_lookup_1 in Hall; [|exact El].
        eapply Forall_lookup_1 in Hall; [|exact E]. exact Hall. }
      assert (Hw : HeatmapType_wrap (v + 1) = v + 1).
      { unfold HeatmapType_wrap. apply Z.mod_small. lia. }
      rewrite Hw in H.
      destruct (IH _ H) as [Htot Hmax'];
        cbn [o_heatmap o_maxHeatmapValue];
        try rewrite (heatmapTotal_setCell _ _ _ v) by assumption.
      * apply setCell_nonneg; [assumption|lia].
      * lia.
      * lia.
      * cbn [o_heatmap] in Htot.
        rewrite (heatmapTotal_setCell _ _ _ v) in Htot by assumption.
        cbn [length]. split; [lia|exact Hmax'].
    + injection Ha as <-. apply IH; [assumption..|lia].
Qed.

End Conservation.

(** Starting from a fresh grid, with fewer than [2^32] points, the sum of
    all counters is the number of points that passed the window test, and
    the maximum is at most that number. *)
Theorem accumulatePoints_conserves_points
  (imageWidth imageHeight : Z) (minimum maximum : Complex)
  (width height : Z) (l : list Complex) (acc' : Accumulator) :
  accumulatePoints imageWidth imageHeight minimum maximum
    (mkAcc (zeroHeatmap width height) 0) l = Ok acc' ->
  Z.of_nat (length l) < UINT_MODULUS ->
  heatmapTotal (o_heatmap acc')
  = Z.of_nat (length (pointsInWindow minimum maximum l))
  /\ o_maxHeatmapValue acc'
     <= Z.of_nat (length (pointsInWindow minimum maximum l)).
Proof.
  intros H Hlen.
  destruct (zeroHeatmap_total width height) as [Hz Hall].
  apply accumulatePoints_total in H; cbn [o_heatmap o_maxHeatmapValue];
    try rewrite Hz; try assumption; try lia.
  cbn [o_heatmap] in H. rewrite Hz in H. lia.
Qed.

Lemma accumulatePoints_conserves_points_witness :
  let minimum := Complex.mk (-2) (-2) in
  let maximum := Complex.mk 1 2 in
  let l := [Complex.mk 0.5 0.75; Complex.mk 1 3; Complex.mk 0.5 0.75] in
  let acc' := mkAcc [[0; 0; 0; 0]; [0; 0; 0; 0]; [0; 0; 0; 0]; [0; 0; 2; 0]]
                2 in
  accumulatePoints 4 4 minimum maximum (mkAcc (zeroHeatmap 4 4) 0) l
  = Ok acc'
  /\ pointsInWindow minimum maximum l
     = [Complex.mk 0.5 0.75; Complex.mk 0.5 0.75]
  /\ heatmapTotal (o_heatmap acc')
     = Z.of_nat (length (pointsInWindow minimum maximum l)).
Proof.
  cbn zeta. split; [vm_compute; reflexivity|].
  split; [vm_compute; reflexivity|].
  apply (accumulatePoints_conserves_points 4 4 (Complex.mk (-2) (-2))
           (Complex.mk 1 2) 4 4
           [Complex.mk 0.5 0.75; Complex.mk 1 3; Complex.mk 0.5 0.75]).
  - vm_compute. reflexivity.
  - vm_compute. reflexivity.
Defined.

(** ** The order and the grouping of the samples *)

Lemma buddhabrotPoints_returns (c : Complex) (nIterations : Z) :
  0 <= nIterations -> exists l, buddhabrotPoints c nIterations = Ok l.
Proof.
  intros HN.
  destruct (buddhabrotPoints_orbit c nIterations HN)
    as (n' & _ & _ & _ & _ & ->). eauto.
Qed.

Section SampleOrder.

Variables imageWidth imageHeight : Z.
Variables minimum maximum : Complex.
Variable nIterations : Z.

Local Abbreviation sampleLoop' :=
  (sampleLoop imageWidth imageHeight minimum maximum nIterations).
Local Abbreviation accumulatePoints' :=
  (accumulatePoints imageWidth imageHeight minimum maximum).

(** With a bound that [reserve] accepts, the loop over the samples is the
    accumulation of their trajectories, successful or not. *)
Lemma sampleLoop_passPoints (rng : nat -> Complex) (k : nat)
  (sampleIdx : Z) (acc : Accumulator) :
  0 <= nIterations -> 0 <= sampleIdx ->
  sampleLoop' rng k sampleIdx acc
  = (acc' ← accumulatePoints' acc
              (passPoints nIterations rng (Z.to_nat sampleIdx) k);
     Ok (acc', sampleIdx + Z.of_nat k)).
Proof.
  intros HN. revert sampleIdx acc.
  induction k as [|k IH]; intros sampleIdx acc Hidx.
  - cbn. f_equal. f_equal. lia.
  - cbn [sampleLoop]. unfold passPoints. cbn [seq flat_map].
    destruct (buddhabrotPoints_returns (rng (Z.to_nat sampleIdx))
                nIterations HN) as [pointsList ->].
    cbn [mbind result_bind]. rewrite accumulatePoints_app, bind_assoc.
    destruct (accumulatePoints' acc pointsList) as [acc1| |];
      cbn [mbind result_bind]; try reflexivity.
    rewrite IH by lia. unfold passPoints.
    replace (Z.to_nat (sampleIdx + 1)) with (S (Z.to_nat sampleIdx)) by lia.
    destruct (accumulatePoints' acc1 _); cbn [mbind result_bind];
      try reflexivity.
    f_equal. f_equal. lia.
Qed.

Lemma accumulatePoints_Permutation (l1 l2 : list Complex) :
  Permutation l1 l2 ->
  forall acc, accumulatePoints' acc l1 = accumulatePoints' acc l2.
Proof.
  induction 1 as [|x l1 l2 _ IH|x y l|l1 l2 l3 _ IH1 _ IH2]; intros acc.
  - reflexivity.
  - cbn [accumulatePoints].
    destruct (accumulate imageWidth imageHeight minimum maximum acc x);
      cbn [mbind result_bind]; auto.
  - cbn [accumulatePoints]. rewrite <- !bind_assoc.
    rewrite (accumulate_comm imageWidth imageHeight minimum maximum acc y x).
    reflexivity.
  - rewrite IH1. apply IH2.
Qed.

Lemma passPoints_samples (rng : nat -> Complex) (first count : nat) :
  passPoints nIterations rng first count
  = flat_map (fun c => match buddhabrotPoints c nIterations with
                       | Ok pointsList => pointsList
                       | _ => []
                       end)
      (map rng (seq first count)).
Proof.
  unfold passPoints. induction (seq first count) as [|k ks IH];
    [reflexivity|]. cbn [map flat_map]. rewrite IH. reflexivity.
Qed.

Lemma sampleLoop_app (rng : nat -> Complex) (k1 k2 : nat)
  (sampleIdx : Z) (acc : Accumulator) :
  sampleLoop' rng (k1 + k2) sampleIdx acc
  = (r ← sampleLoop' rng k1 sampleIdx acc;
     sampleLoop' rng k2 (snd r) (fst r)).
Proof.
  revert sampleIdx acc; induction k1 as [|k1 IH]; intros sampleIdx acc;
    [reflexivity|].
  cbn [Nat.add sampleLoop]. rewrite !bind_assoc.
  destruct (buddhabrotPoints _ _) as [pointsList| |];
    cbn [mbind result_bind]; try reflexivity.
  rewrite bind_assoc.
  destruct (accumulatePoints' acc pointsList) as [acc1| |];
    cbn [mbind result_bind]; try reflexivity.
  apply IH.
Qed.

Lemma sampleLoop_shift (rng : nat -> Complex) (d k : nat)
  (sampleIdx : Z) (acc : Accumulator) :
  0 <= sampleIdx ->
  sampleLoop' (fun j => rng (d + j)%nat) k sampleIdx acc
  = (r ← sampleLoop' rng k (sampleIdx + Z.of_nat d) acc;
     Ok (fst r, snd r - Z.of_nat d)).
Proof.
  revert sampleIdx acc; induction k as [|k IH]; intros sampleIdx acc Hidx.
  - cbn. f_equal. f_equal. lia.
  - cbn [sampleLoop].
    replace (Z.to_nat (sampleIdx + Z.of_nat d))
      with (d + Z.to_nat sampleIdx)%nat by lia.
    rewrite !bind_assoc.
    destruct (buddhabrotPoints _ _) as [pointsList| |];
      cbn [mbind result_bind]; try reflexivity.
    rewrite bind_assoc.
    destruct (accumulatePoints' acc pointsList) as [acc1| |];
      cbn [mbind result_bind]; try reflexivity.
    rewrite IH by lia.
    replace (sampleIdx + 1 + Z.of_nat d) with (sampleIdx + Z.of_nat d + 1)
      by lia.
    reflexivity.
Qed.

End SampleOrder.

(** The outcome of a call of [GenerateHeatmap] depends on which samples
    the generator delivers, not on the order in which it delivers them. *)
Theorem GenerateHeatmap_sample_order
  (imageWidth imageHeight : Z) (minimum maximum : Complex)
  (nIterations : Z) (rng rng' : nat -> Complex) (nSamples : Z)
  (acc : Accumulator) :
  Permutation (map rng (seq 0 (Z.to_nat nSamples)))
    (map rng' (seq 0 (Z.to_nat nSamples))) ->
  GenerateHeatmap imageWidth imageHeight minimum maximum nIterations rng
    nSamples acc
  = GenerateHeatmap imageWidth imageHeight minimum maximum nIterations rng'
      nSamples acc.
Proof.
  intros Hperm. unfold GenerateHeatmap.
  destruct (uniform_real_distribution _ _); try reflexivity.
  destruct (uniform_real_distribution _ _); try reflexivity.
  cbn [mbind result_bind].
  destruct (Z.le_gt_cases 0 nIterations) as [HN|HN].
  - rewrite !sampleLoop_passPoints by lia.
    rewrite (accumulatePoints_Permutation imageWidth imageHeight
               minimum maximum
               (passPoints nIterations rng (Z.to_nat 0)
                  (Z.to_nat nSamples))
               (passPoints nIterations rng' (Z.to_nat 0)
                  (Z.to_nat nSamples))); [reflexivity|].
    rewrite !passPoints_samples. apply Permutation_flat_map, Hperm.
  - destruct (Z.to_nat nSamples) as [|k]; [reflexivity|].
    rewrite !sampleLoop_negative_bound by lia. reflexivity.
Qed.

Lemma GenerateHeatmap_sample_order_witness :
  let minimum := Complex.mk (-2) (-2) in
  let maximum := Complex.mk 1 2 in
  let rng := fun k : nat =>
               match k with O => Complex.mk 0.5 0.75 | _ => Complex.mk (-1) 0.5
               end in
  let rng' := fun k : nat =>
                match k with O => Complex.mk (-1) 0.5 | _ => Complex.mk 0.5 0.75
                end in
  GenerateHeatmap 4 4 minimum maximum 6 rng 2 (mkAcc (zeroHeatmap 4 4) 0)
  = GenerateHeatmap 4 4 minimum maximum 6 rng' 2 (mkAcc (zeroHeatmap 4 4) 0)
  /\ GenerateHeatmap 4 4 minimum maximum 6 rng 2 (mkAcc (zeroHeatmap 4 4) 0)
     = Ok (mkAcc [[0; 0; 0; 0]; [0; 0; 2; 0]; [1; 1; 0; 1]; [0; 0; 1; 0]] 2,
           2).
Proof.
  cbn zeta. split; [|vm_compute; reflexivity].
  apply (GenerateHeatmap_sample_order 4 4 (Complex.mk (-2) (-2))
           (Complex.mk 1 2) 6
           (fun k : nat =>
              match k with O => Complex.mk 0.5 0.75 | _ => Complex.mk (-1) 0.5
              end)
           (fun k : nat =>
              match k with O => Complex.mk (-1) 0.5 | _ => Complex.mk 0.5 0.75
              end) 2 (mkAcc (zeroHeatmap 4 4) 0)).
  apply perm_swap.
Defined.

(** Drawing [a + b] samples in one call is drawing [a] samples and then,
    in a second call on the grid and the maximum left by the first, the
    [b] samples that follow them. *)
Theorem GenerateHeatmap_split
  (imageWidth imageHeight : Z) (minimum maximum : Complex)
  (nIterations : Z) (rng : nat -> Complex) (a b : Z) (acc : Accumulator) :
  0 <= a -> 0 <= b ->
  GenerateHeatmap imageWidth imageHeight minimum maximum nIterations rng
    (a + b) acc
  = (first ← GenerateHeatmap imageWidth imageHeight minimum maximum
               nIterations rng a acc;
     second ← GenerateHeatmap imageWidth imageHeight minimum maximum
                nIterations (fun j => rng (Z.to_nat a + j)%nat) b
                (fst first);
     Ok (fst second, a + snd second)).
Proof.
  intros Ha Hb. unfold GenerateHeatmap.
  destruct (uniform_real_distribution (Complex.r minimum)
              (Complex.r maximum)) as [[]| |]; try reflexivity.
  cbn [mbind result_bind].
  destruct (uniform_real_distribution (Complex.i minimum)
              (Complex.i maximum)) as [[]| |]; try reflexivity.
  cbn [mbind result_bind].
  replace (Z.to_nat (a + b)) with (Z.to_nat a + Z.to_nat b)%nat by lia.
  rewrite sampleLoop_app.
  destruct (sampleLoop _ _ _ _ _ rng (Z.to_nat a) 0 acc)
    as [[acc1 n1]| |] eqn:E1; cbn [mbind result_bind fst snd];
    try reflexivity.
  apply sampleLoop_points in E1 as [_ ->]; [|lia].
  rewrite sampleLoop_shift by lia.
  replace (0 + Z.of_nat (Z.to_nat a)) with a by lia.
  destruct (sampleLoop _ _ _ _ _ rng (Z.to_nat b) a acc1)
    as [[acc2 n2]| |]; cbn [mbind result_bind fst snd]; try reflexivity.
  f_equal. f_equal. lia.
Qed.

Lemma GenerateHeatmap_split_witness :
  let minimum := Complex.mk (-2) (-2) in
  let maximum := Complex.mk 1 2 in
  let rng := fun k : nat =>
               match k with O => Complex.mk 0.5 0.75 | _ => Complex.mk (-1) 0.5
               end in
  let acc := mkAcc (zeroHeatmap 4 4) 0 in
  GenerateHeatmap 4 4 minimum maximum 6 rng (1 + 1) acc
  = (first ← GenerateHeatmap 4 4 minimum maximum 6 rng 1 acc;
     second ← GenerateHeatmap 4 4 minimum maximum 6
                (fun j => rng (Z.to_nat 1 + j)%nat) 1 (fst first);
     Ok (fst second, 1 + snd second)).
Proof.
  cbn zeta.
  apply (GenerateHeatmap_split 4 4 (Complex.mk (-2) (-2)) (Complex.mk 1 2) 6
           (fun k : nat =>
              match k with O => Complex.mk 0.5 0.75 | _ => Complex.mk (-1) 0.5
              end) 1 1 (mkAcc (zeroHeatmap 4 4) 0)); lia.
Defined.

(** ** Arithmetic of [Complex] in binary64 *)

Lemma SFmul_comm (prec emax : Z) (x y : spec_float) :
  SFmul prec emax x y = SFmul prec emax y x.
Proof.
  destruct x as [sx|sx| |sx mx ex], y as [sy|sy| |sy my ey]; cbn;
    rewrite ?(xorb_comm sx sy); try reflexivity.
  rewrite (Pos.mul_comm mx my), (Z.add_comm ex ey). reflexivity.
Qed.

Lemma SFadd_comm (prec emax : Z) (x y : spec_float) :
  SFadd prec emax x y = SFadd prec emax y x.
Proof.
  destruct x as [sx|sx| |sx mx ex], y as [sy|sy| |sy my ey]; cbn;
    try reflexivity; try (destruct sx, sy; reflexivity).
  rewrite (Z.min_comm ex ey).
  rewrite (Z.add_comm (cond_Zopp sx _)). reflexivity.
Qed.

Lemma float_mul_comm (x y : float) : (x * y = y * x)%float.
Proof.
  rewrite <- (SF2Prim_Prim2SF (x * y)), <- (SF2Prim_Prim2SF (y * x)).
  rewrite !mul_spec. unfold SF64mul. rewrite SFmul_comm. reflexivity.
Qed.

Lemma float_add_comm (x y : float) : (x + y = y + x)%float.
Proof.
  rewrite <- (SF2Prim_Prim2SF (x + y)), <- (SF2Prim_Prim2SF (y + x)).
  rewrite !add_spec. unfold SF64add. rewrite SFadd_comm. reflexivity.
Qed.

(** [operator*] is commutative, bit for bit: the rounding of the four
    products and of the two sums does not depend on the order of the
    operands. *)
Theorem Complex_mul_comm (a b : Complex) :
  Complex.mul a b = Complex.mul b a.
Proof.
  unfold Complex.mul. f_equal.
  - rewrite (float_mul_comm (Complex.r a) (Complex.r b)).
    rewrite (float_mul_comm (Complex.i a) (Complex.i b)). reflexivity.
  - rewrite (float_mul_comm (Complex.r a) (Complex.i b)).
    rewrite (float_mul_comm (Complex.i a) (Complex.r b)).
    apply float_add_comm.
Qed.

(** [operator+] is commutative, bit for bit. *)
Theorem Complex_add_comm (a b : Complex) :
  Complex.add a b = Complex.add b a.
Proof. unfold Complex.add. f_equal; apply float_add_comm. Qed.

(** ** NaN coordinates and the lower edge of the window *)

Lemma Prim2SF_nan (x : float) : is_nan x = true -> Prim2SF x = S754_nan.
Proof. intros H. unfold Prim2SF. rewrite H. reflexivity. Qed.

Lemma leb_nan_l (x y : float) : is_nan x = true -> (x <=? y)%float = false.
Proof.
  intros H. rewrite leb_spec, (Prim2SF_nan x H). reflexivity.
Qed.

Lemma leb_nan_r (x y : float) : is_nan y = true -> (x <=? y)%float = false.
Proof.
  intros H. rewrite leb_spec, (Prim2SF_nan y H).
  destruct (Prim2SF x) as [s|s| |s m e]; try reflexivity;
    destruct s; reflexivity.
Qed.

(** A point with a NaN coordinate is never counted: no comparison of the
    window test holds for it, whatever the window. *)
Theorem accumulate_drops_nan
  (imageWidth imageHeight : Z) (minimum maximum : Complex)
  (acc : Accumulator) (point : Complex) :
  is_nan (Complex.r point) = true \/ is_nan (Complex.i point) = true ->
  inWindow minimum maximum point = false
  /\ accumulate imageWidth imageHeight minimum maximum acc point = Ok acc.
Proof.
  intros H.
  assert (Hw : inWindow minimum maximum point = false).
  { unfold inWindow. destruct H as [H|H].
    - rewrite (leb_nan_l _ _ H). reflexivity.
    - rewrite (leb_nan_l (Complex.i point) _ H).
      rewrite andb_false_r. reflexivity. }
  split; [exact Hw|]. unfold accumulate. rewrite Hw. reflexivity.
Qed.

Lemma accumulate_drops_nan_witness :
  let point := Complex.mk nan 0 in
  let acc := mkAcc (zeroHeatmap 4 4) 0 in
  is_nan (Complex.r point) = true
  /\ accumulate 4 4 (Complex.mk (-2) (-2)) (Complex.mk 1 2) acc point
     = Ok acc.
Proof.
  cbn zeta. split; [reflexivity|].
  apply (accumulate_drops_nan 4 4 (Complex.mk (-2) (-2)) (Complex.mk 1 2)
           (mkAcc (zeroHeatmap 4 4) 0) (Complex.mk nan 0)).
  left. reflexivity.
Defined.

Lemma Prim2SF_finite_cases (x : float) :
  is_nan x = false -> is_infinity x = false ->
  (exists s, Prim2SF x = S754_zero s)
  \/ (exists s m e, Prim2SF x = S754_finite s m e).
Proof.
  intros Hn Hi. unfold Prim2SF. rewrite Hn, Hi.
  destruct (is_zero x); [left; eauto|].
  destruct (Z.frexp x) as [r exp].
  destruct (shr_fexp _ _ _ _ _) as [shr e'].
  destruct (shr_m shr); [left|right|left]; eauto.
Qed.

Lemma sub_diag_zero (x : float) :
  is_nan x = false -> is_infinity x = false ->
  Prim2SF (x - x) = S754_zero false.
Proof.
  intros Hn Hi. rewrite sub_spec. unfold SF64sub.
  destruct (Prim2SF_finite_cases x Hn Hi) as [[s ->]|(s & m & e & ->)].
  - destruct s; reflexivity.
  - cbn. rewrite Z.sub_diag. reflexivity.
Qed.

Lemma int_of_double_zero_product (x y : float) :
  Prim2SF x = S754_zero false ->
  is_nan y = false -> is_infinity y = false ->
  int_of_double (x * y) = Ok 0.
Proof.
  intros Hx Hn Hi. unfold int_of_double, truncate.
  rewrite mul_spec, Hx. unfold SF64mul.
  destruct (Prim2SF_finite_cases y Hn Hi) as [[s ->]|(s & m & e & ->)];
    reflexivity.
Qed.

(** A coordinate equal to the lower bound of its axis is mapped to the
    index 0, whenever that bound is a finite number and the scale
    [length / (max - min)] is one too. *)
Theorem mapper_at_minimum (minR maxR : float) (imageHeight : Z) :
  is_nan minR = false -> is_infinity minR = false ->
  is_nan (double_of_Z imageHeight / (maxR - minR)) = false ->
  is_infinity (double_of_Z imageHeight / (maxR - minR)) = false ->
  rowFromReal minR minR maxR imageHeight = Ok 0
  /\ colFromImaginary minR minR maxR imageHeight = Ok 0.
Proof.
  intros Hn Hi Hsn Hsi. unfold rowFromReal, colFromImaginary.
  split; apply int_of_double_zero_product; auto using sub_diag_zero.
Qed.

Lemma mapper_at_minimum_witness :
  rowFromReal (-2) (-2) 1 7000 = Ok 0
  /\ colFromImaginary (-2) (-2) 2 7000 = Ok 0.
Proof.
  split.
  - apply (mapper_at_minimum (-2) 1 7000); reflexivity.
  - apply (mapper_at_minimum (-2) 2 7000); reflexivity.
Defined.

Lemma buddhabrotPoints_immediate_escape_witness :
  bounded (orbit (Complex.mk 3 0) 1) = false
  /\ buddhabrotPoints (Complex.mk 3 0) 2 = Ok [orbit (Complex.mk 3 0) 1].
Proof.
  split; [reflexivity|].
  apply (buddhabrotPoints_immediate_escape (Complex.mk 3 0) 2);
    [lia|reflexivity].
Defined.

(** ** The normaliser on a zero maximum *)

Lemma div_by_zero_cases (x : float) :
  Prim2SF (x / 0) = S754_nan \/ exists s, Prim2SF (x / 0) = S754_infinity s.
Proof.
  rewrite div_spec. unfold SF64div.
  change (Prim2SF 0) with (S754_zero false).
  destruct (Prim2SF x) as [s|s| |s m e]; cbn; eauto.
Qed.

Lemma mul_not_finite (x y : float) :
  Prim2SF y = S754_nan \/ (exists s, Prim2SF y = S754_infinity s) ->
  truncate (x * y) = None.
Proof.
  intros H. unfold truncate. rewrite mul_spec. unfold SF64mul.
  destruct H as [->|[s ->]];
    destruct (Prim2SF x) as [sx|sx| |sx mx ex]; reflexivity.
Qed.

(** With a zero maximum no call of [colorFromHeatmap] has a defined
    result, whatever the counter and the ceiling: the scale is an infinity
    or NaN, and so is its product with the counter. *)
Theorem colorFromHeatmap_zero_maximum_undefined (inputValue maxColor : Z) :
  colorFromHeatmap inputValue 0 maxColor = Undefined.
Proof.
  unfold colorFromHeatmap, int_of_double. cbn zeta.
  change (double_of_Z 0) with 0%float.
  rewrite (mul_not_finite _ _ (div_by_zero_cases (double_of_Z maxColor))).
  reflexivity.
Qed.

(** ** The grid does not depend on the incoming maximum *)

Section GridIgnoresMaximum.

Variables imageWidth imageHeight : Z.
Variables minimum maximum : Complex.

Local Abbreviation accumulate' :=
  (accumulate imageWidth imageHeight minimum maximum).
Local Abbreviation accumulatePoints' :=
  (accumulatePoints imageWidth imageHeight minimum maximum).

Lemma accumulate_grid (heatmap : Heatmap) (m m' : Z) (point : Complex) :
  (exists g m1 m1',
      accumulate' (mkAcc heatmap m) point = Ok (mkAcc g m1)
      /\ accumulate' (mkAcc heatmap m') point = Ok (mkAcc g m1'))
  \/ (accumulate' (mkAcc heatmap m) point
      = accumulate' (mkAcc heatmap m') point
      /\ forall a, accumulate' (mkAcc heatmap m) point <> Ok a).
Proof.
  rewrite !accumulate_binOf.
  destruct (binOf _ _ _ _ point) as [[[row col]|]| |];
    cbn [mbind result_bind].
  - destruct (readCell_cases heatmap row col) as [H|[v H]].
    + right. rewrite !countAt_Undefined by exact H.
      split; [reflexivity|discriminate].
    + left. rewrite (countAt_Ok (mkAcc heatmap m) _ _ _ H).
      rewrite (countAt_Ok (mkAcc heatmap m') _ _ _ H). eauto.
  - left. eauto.
  - right. split; [reflexivity|discriminate].
  - right. split; [reflexivity|discriminate].
Qed.

Lemma accumulatePoints_grid (l : list Complex) (heatmap : Heatmap)
  (m m' : Z) :
  (exists g m1 m1',
      accumulatePoints' (mkAcc heatmap m) l = Ok (mkAcc g m1)
      /\ accumulatePoints' (mkAcc heatmap m') l = Ok (mkAcc g m1'))
  \/ (accumulatePoints' (mkAcc heatmap m) l
      = accumulatePoints' (mkAcc heatmap m') l
      /\ forall a, accumulatePoints' (mkAcc heatmap m) l <> Ok a).
Proof.
  revert heatmap m m'; induction l as [|p l IH]; intros heatmap m m'.
  - left. cbn. eauto.
  - cbn [accumulatePoints].
    destruct (accumulate_grid heatmap m m' p)
      as [(g & m1 & m1' & -> & ->)|[Heq Hno]].
    + cbn [mbind result_bind]. apply IH.
    + right. rewrite <- Heq.
      destruct (accumulate' (mkAcc heatmap m) p) as [a| |];
        [exfalso; apply (Hno a); reflexivity|..];
        (split; [reflexivity|discriminate]).
Qed.

Lemma sampleLoop_grid (nIterations : Z) (rng : nat -> Complex) (k : nat)
  (sampleIdx : Z) (heatmap : Heatmap) (m m' : Z) :
  (r ← sampleLoop imageWidth imageHeight minimum maximum nIterations rng
         k sampleIdx (mkAcc heatmap m);
   Ok (o_heatmap (fst r), snd r))
  = (r ← sampleLoop imageWidth imageHeight minimum maximum nIterations rng
           k sampleIdx (mkAcc heatmap m');
     Ok (o_heatmap (fst r), snd r)).
Proof.
  revert sampleIdx heatmap m m'; induction k as [|k IH];
    intros sampleIdx heatmap m m'; [reflexivity|].
  cbn [sampleLoop]. rewrite !bind_assoc.
  destruct (buddhabrotPoints _ _) as [pointsList| |];
    cbn [mbind result_bind]; try reflexivity.
  rewrite !bind_assoc.
  destruct (accumulatePoints_grid pointsList heatmap m m')
    as [(g & m1 & m1' & -> & ->)|[Heq Hno]].
  - cbn [mbind result_bind]. apply IH.
  - rewrite <- Heq.
    destruct (accumulatePoints' (mkAcc heatmap m) pointsList) as [a| |];
      [exfalso; apply (Hno a); reflexivity|reflexivity..].
Qed.

End GridIgnoresMaximum.

(** The counters a call of [GenerateHeatmap] leaves, the number of samples
    it draws and the way it fails do not depend on the maximum it is
    given: the shared maximum is written by the channels, never read into
    a grid. *)
Theorem GenerateHeatmap_grid_ignores_maximum
  (imageWidth imageHeight : Z) (minimum maximum : Complex)
  (nIterations : Z) (rng : nat -> Complex) (nSamples : Z)
  (heatmap : Heatmap) (m m' : Z) :
  (r ← GenerateHeatmap imageWidth imageHeight minimum maximum nIterations
         rng nSamples (mkAcc heatmap m);
   Ok (o_heatmap (fst r), snd r))
  = (r ← GenerateHeatmap imageWidth imageHeight minimum maximum nIterations
           rng nSamples (mkAcc heatmap m');
     Ok (o_heatmap (fst r), snd r)).
Proof.
  unfold GenerateHeatmap.
  destruct (uniform_real_distribution (Complex.r minimum)
              (Complex.r maximum)) as [[]| |]; try reflexivity.
  cbn [mbind result_bind].
  destruct (uniform_real_distribution (Complex.i minimum)
              (Complex.i maximum)) as [[]| |]; try reflexivity.
  cbn [mbind result_bind]. apply sampleLoop_grid.
Qed.

(** ** The trajectory generator, as the code has it *)

Lemma SFltb_not_leb (x y : spec_float) :
  SFltb x y = true -> SFleb y x = false.
Proof.
  unfold SFltb, SFleb.
  destruct x as [sx|sx| |sx mx ex], y as [sy|sy| |sy my ey]; cbn;
    try discriminate;
    try (destruct sx; discriminate || reflexivity);
    try (destruct sy; discriminate || reflexivity);
    try (destruct sx, sy; discriminate || reflexivity).
  pose proof (Pos.compare_cont_antisym mx my Eq) as A. cbn [CompOpp] in A.
  pose proof (Z.compare_antisym ex ey) as B.
  destruct sx, sy; try discriminate; try reflexivity;
    rewrite B; rewrite <- A;
    destruct (ex ?= ey)%Z; cbn; try discriminate; try reflexivity;
    destruct (Pos.compare_cont Eq mx my); cbn; discriminate || reflexivity.
Qed.

Lemma float_ltb_not_leb (x y : float) :
  (x <? y)%float = true -> (y <=? x)%float = false.
Proof. rewrite ltb_spec, leb_spec. apply SFltb_not_leb. Qed.

(** A [double] above [4.0] is above [2.0]. *)
Lemma float_above_four (x : float) :
  (4 <? x)%float = true -> (2 <? x)%float = true.
Proof.
  rewrite !ltb_spec.
  change (Prim2SF 4) with (S754_finite false 4503599627370496 (-50)).
  change (Prim2SF 2) with (S754_finite false 4503599627370496 (-51)).
  unfold SFltb.
  destruct (Prim2SF x) as [s|s| |s m e]; cbn -[Z.compare];
    try discriminate.
  - destruct s; [discriminate|reflexivity].
  - destruct s; [discriminate|].
    assert (Hcases : -50 < e \/ -50 = e \/ e < -50) by lia.
    destruct Hcases as [He|[He|He]].
    + intros _. replace (-51 ?= e) with Lt; [reflexivity|].
      symmetry. apply Z.compare_lt_iff. lia.
    + subst e. intros _. reflexivity.
    + replace (-50 ?= e) with Gt; [discriminate|].
      symmetry. apply Z.compare_gt_iff. lia.
Qed.

Lemma Prim2SF_add_zero_l (x : float) :
  Prim2SF (0 + x)
  = match Prim2SF x with
    | S754_zero _ => S754_zero false
    | y => y
    end.
Proof.
  rewrite add_spec. change (Prim2SF 0) with (S754_zero false).
  unfold SF64add. destruct (Prim2SF x) as [[]|s| |s m e]; reflexivity.
Qed.

Lemma square_add_zero_l (x : float) : ((0 + x) * (0 + x) = x * x)%float.
Proof.
  rewrite <- (SF2Prim_Prim2SF ((0 + x) * (0 + x))),
    <- (SF2Prim_Prim2SF (x * x)).
  rewrite !mul_spec, Prim2SF_add_zero_l. unfold SF64mul.
  destruct (Prim2SF x) as [[]|s| |s m e]; reflexivity.
Qed.

(** The first iterate [z_1 = 0 * 0 + c] has the squared magnitude of the
    candidate, bit for bit. *)
Lemma sqmagnitude_first_iterate (c : Complex) :
  Complex.sqmagnitude (orbit c 1) = Complex.sqmagnitude c.
Proof.
  change (orbit c 1)
    with (Complex.mk (0 + Complex.r c) (0 + Complex.i c)).
  unfold Complex.sqmagnitude. cbn [Complex.r Complex.i].
  rewrite !square_add_zero_l. reflexivity.
Qed.

(** C2, as the code has it. For every candidate [c] with [|c| > 2], that is
    with squared magnitude above [4.0] as [sqmagnitude] computes it, and
    every bound [N >= 2], the call returns a non-empty sequence: the one
    point [z_1 = 0 * 0 + c], whose squared magnitude is that of [c] and
    exceeds [2.0].  With the bound 1 the result is empty for every
    candidate. *)
Theorem buddhabrotPoints_outside_radius_two (c : Complex) (nIterations : Z) :
  2 <= nIterations ->
  (4 <? Complex.sqmagnitude c)%float = true ->
  buddhabrotPoints c nIterations = Ok [orbit c 1]
  /\ Complex.sqmagnitude (orbit c 1) = Complex.sqmagnitude c
  /\ (2 <? Complex.sqmagnitude (orbit c 1))%float = true
  /\ buddhabrotPoints c 1 = Ok [].
Proof.
  intros HN Hc.
  pose proof (sqmagnitude_first_iterate c) as Hsq.
  assert (H2 : (2 <? Complex.sqmagnitude (orbit c 1))%float = true)
    by (rewrite Hsq; apply float_above_four, Hc).
  split; [|split; [exact Hsq|split; [exact H2|reflexivity]]].
  apply (buddhabrotPoints_escape c nIterations 1); [lia| |].
  - intros j Hj. replace j with 0%nat by lia. reflexivity.
  - unfold bounded. apply float_ltb_not_leb, H2.
Qed.

Lemma buddhabrotPoints_outside_radius_two_witness :
  (4 <? Complex.sqmagnitude (Complex.mk 3 0))%float = true
  /\ buddhabrotPoints (Complex.mk 3 0) 2 = Ok [orbit (Complex.mk 3 0) 1]
  /\ buddhabrotPoints (Complex.mk 3 0) 2 = Ok [Complex.mk 3 0].
Proof.
  split; [reflexivity|]. split; [|vm_compute; reflexivity].
  apply (buddhabrotPoints_outside_radius_two (Complex.mk 3 0) 2);
    [lia|reflexivity].
Defined.

(** C3, as the code has it. For every positive bound [N] and every
    candidate [c], the call returns the empty sequence exactly when the
    iterates [z_0 .. z_(N-1)] all pass the loop test (squared magnitude at
    most [2.0]), whatever [z_N] is; otherwise, with [z_k], [1 <= k < N],
    the first iterate that fails the test, it returns the full sequence
    [z_1 .. z_k] of visited points, the point [z_k] that triggered the
    escape included. *)
Theorem buddhabrotPoints_empty_or_first_escape
  (c : Complex) (nIterations : Z) :
  0 < nIterations ->
  (buddhabrotPoints c nIterations = Ok []
   <-> forall j, (j < Z.to_nat nIterations)%nat -> bounded (orbit c j) = true)
  /\ (forall k : nat,
        (k < Z.to_nat nIterations)%nat ->
        (forall j, (j < k)%nat -> bounded (orbit c j) = true) ->
        bounded (orbit c k) = false ->
        (1 <= k)%nat
        /\ buddhabrotPoints c nIterations
           = Ok (map (orbit c) (seq 1 (k - 1)) ++ [orbit c k])).
Proof.
  intros HN. split; [split|].
  - intros H.
    destruct (buddhabrotPoints_orbit c nIterations ltac:(lia))
      as (n' & Hn' & Hb & He & _ & Hres).
    rewrite Hres in H.
    destruct (Z.of_nat n' =? nIterations) eqn:E.
    + apply Z.eqb_eq in E. intros j Hj. apply Hb. lia.
    + injection H as H. destruct n' as [|n']; [|discriminate].
      assert (Hlt : (0 < Z.to_nat nIterations)%nat) by lia.
      specialize (He Hlt). cbn [orbit] in He.
      rewrite bounded_default in He. discriminate.
  - apply buddhabrotPoints_bounded. lia.
  - intros k Hk Hall Hesc.
    assert (Hk1 : (1 <= k)%nat).
    { destruct k as [|k]; [|lia]. cbn [orbit] in Hesc.
      rewrite bounded_default in Hesc. discriminate. }
    split; [exact Hk1|].
    rewrite (buddhabrotPoints_escape c nIterations k) by (lia || assumption).
    f_equal. replace k with (S (k - 1)) at 1 by lia.
    rewrite seq_S, map_app. cbn [map].
    replace (1 + (k - 1))%nat with k by lia. reflexivity.
Qed.

Lemma buddhabrotPoints_empty_or_first_escape_witness :
  let c := Complex.mk (-1) 0.5 in
  (buddhabrotPoints c 5 = Ok []
   <-> forall j, (j < Z.to_nat 5)%nat -> bounded (orbit c j) = true)
  /\ buddhabrotPoints c 5 = Ok []
  /\ buddhabrotPoints c 6
     = Ok [orbit c 1; orbit c 2; orbit c 3; orbit c 4; orbit c 5].
Proof.
  cbn zeta.
  destruct (buddhabrotPoints_empty_or_first_escape (Complex.mk (-1) 0.5) 5)
    as [Hiff _]; [lia|].
  split; [exact Hiff|]. split; [vm_compute; reflexivity|].
  destruct (buddhabrotPoints_empty_or_first_escape (Complex.mk (-1) 0.5) 6)
    as [_ Hesc]; [lia|].
  destruct (Hesc 5%nat) as [_ H].
  - vm_compute. lia.
  - intros j Hj.
    destruct j as [|[|[|[|[|j]]]]]; try (vm_compute; reflexivity). lia.
  - vm_compute. reflexivity.
  - exact H.
Defined.

(** ** The release of the grids *)




